(** * The twitch.js client facade (src/client/Client.js)

    A shallow embedding of the [Client] class: option merging and
    validation, the constructor (token, channel store, sweep timer,
    session manager), the re-emission of events ([eventEmmiter]) and the
    periodic sweep of the message caches ([sweepMessages]).

    JavaScript values are an inductive type; numbers are the integers
    (seconds, counts, millisecond timestamps) plus NaN.  An object is the
    list of its own properties in enumeration order.  Exceptions are a
    [Throw] result, and calls to the logger, the timers and the other
    collaborators are recorded in a trace of effects.  Where the engine
    raises the TypeError (a property of undefined, a call of something that
    is not a function) the message is the engine's and only indicative. *)

From Stdlib Require Import ZArith List String Ascii Bool Lia.
Import ListNotations.
Open Scope string_scope.
Open Scope list_scope.
Open Scope Z_scope.

(** ** JavaScript values, strings and objects *)

Module Js.

Inductive JsVal : Type :=
| JUndefined
| JNull
| JBool (b : bool)
| JNum (n : Z)
| JNaN
| JStr (s : string)
| JArr (l : list string)   (* an Array of strings (room names, event names) *)
| JObj (lengthPositive : bool).
  (* any other object; all that the client reads of one, besides its type
     and truthiness, is whether its [length] is greater than 0 *)

(** ToBoolean. *)
Definition truthy (v : JsVal) : bool :=
  match v with
  | JUndefined | JNull | JNaN => false
  | JBool b => b
  | JNum n => negb (n =? 0)
  | JStr s => negb (String.eqb s "")
  | JArr _ | JObj _ => true
  end.

Definition typeof (v : JsVal) : string :=
  match v with
  | JUndefined => "undefined"
  | JNull | JArr _ | JObj _ => "object"
  | JBool _ => "boolean"
  | JNum _ | JNaN => "number"
  | JStr _ => "string"
  end.

(** [isNaN v] for a [v] of type number: every use in the source is the
    right operand of [typeof v !== 'number' || isNaN(v)]. *)
Definition isNaN (v : JsVal) : bool :=
  match v with JNaN => true | _ => false end.

(** [v instanceof Array]. *)
Definition instanceofArray (v : JsVal) : bool :=
  match v with JArr _ => true | _ => false end.

(** [v.length > 0]: strings and arrays have a length, another object may
    have one; on a number or a boolean the property is undefined and the
    comparison is false (the test is not reached on undefined or null). *)
Definition length_gt0 (v : JsVal) : bool :=
  match v with
  | JStr s => 0 <? Z.of_nat (String.length s)
  | JArr l => 0 <? Z.of_nat (List.length l)
  | JObj lengthPositive => lengthPositive
  | _ => false
  end.

(** [s.indexOf(c)]: position of the first [c], or -1. *)
Fixpoint indexOf_from (c : ascii) (s : string) (i : Z) : Z :=
  match s with
  | EmptyString => -1
  | String a s' => if Ascii.eqb a c then i else indexOf_from c s' (i + 1)
  end.

Definition indexOf (c : ascii) (s : string) : Z := indexOf_from c s 0.

(** Whether a character occurs in a string. *)
Fixpoint occurs (c : ascii) (s : string) : bool :=
  match s with
  | EmptyString => false
  | String a s' => Ascii.eqb a c || occurs c s'
  end.

(** [s.slice(b, e)]: a negative index counts from the end, both are
    clamped to the string. *)
Definition slice (s : string) (b e : Z) : string :=
  let len := Z.of_nat (String.length s) in
  let from := if b <? 0 then Z.max (len + b) 0 else Z.min b len in
  let to := if e <? 0 then Z.max (len + e) 0 else Z.min e len in
  substring (Z.to_nat from) (Z.to_nat (to - from)) s.

(** An object: its own properties, in enumeration order. *)
Definition Obj : Type := list (string * JsVal).

Fixpoint lookup {V : Type} (o : list (string * V)) (k : string) : option V :=
  match o with
  | [] => None
  | (k', v) :: o' => if String.eqb k' k then Some v else lookup o' k
  end.

(** [o[k]]/[o.k]: an absent property reads as undefined. *)
Definition getProp (o : Obj) (k : string) : JsVal :=
  match lookup o k with Some v => v | None => JUndefined end.

(** [{}.hasOwnProperty.call(o, k)], also [k in o] for a plain object. *)
Definition hasOwn {V : Type} (o : list (string * V)) (k : string) : bool :=
  match lookup o k with Some _ => true | None => false end.

(** [Object.keys(o)]. *)
Definition keys {V : Type} (o : list (string * V)) : list string := map fst o.

(** [a.includes(k)] on an array of strings. *)
Definition includes (a : list string) (k : string) : bool :=
  existsb (String.eqb k) a.

End Js.
Import Js.

(** ** The collection utility and the structures

    [utils] (collection, logger, constants, Util) and [structures/channels]
    are not part of the sources at hand; what the client uses of them is
    modelled here. *)

Module Collection.

(** Modelled from the spec: the collection utility is missing (utils is not
    under src/); it is the generic ordered key-value collection of the spec,
    a Map with helpers: keys are unique and entries keep insertion order. *)
Definition t (V : Type) : Type := list (string * V).

Definition empty {V : Type} : t V := [].

(** Modelled from the spec: [get] of the missing collection, the keyed
    lookup of the ordered mapping; an absent key gives undefined ([None]). *)
Definition get {V : Type} (c : t V) (k : string) : option V := lookup c k.

(** Modelled from the spec: [set] of the missing collection; an existing key
    keeps its place and takes the new value, a new key goes last. *)
Fixpoint set {V : Type} (c : t V) (k : string) (v : V) : t V :=
  match c with
  | [] => [(k, v)]
  | (k', v') :: c' =>
      if String.eqb k' k then (k', v) :: c' else (k', v') :: set c' k v
  end.

(** Modelled from the spec: [values] of the missing collection, the entries'
    values in order. *)
Definition values {V : Type} (c : t V) : list V := map snd c.

(** Modelled from the spec: [find] of the missing collection, the first value
    in order that satisfies the predicate, undefined ([None]) if none does. *)
Definition find {V : Type} (fn : V -> bool) (c : t V) : option V :=
  List.find fn (values c).

(** Modelled from the spec: [sweep] of the missing collection (Message Cache
    sweep: a single pass over all entries; removes and counts those matching
    the predicate; returns the count).  The result is the count and the
    entries that stay. *)
Fixpoint sweep {V : Type} (fn : V -> bool) (c : t V) : Z * t V :=
  match c with
  | [] => (0, [])
  | (k, v) :: c' =>
      let (n, kept) := sweep fn c' in
      if fn v then (n + 1, kept) else (n, (k, v) :: kept)
  end.

End Collection.

(** Modelled from the spec: the Message structure is missing; the spec gives
    a message an id, content, a creation timestamp and an optional edit
    timestamp (milliseconds, as [Date.now()]). *)
Record Message : Type := mkMessage {
  message_id : string;
  message_content : string;
  createdTimestamp : Z;
  editedTimestamp : option Z
}.

(** Modelled from the spec: the User structure is missing; a user has an
    identifier, the lowercase login name. *)
Record User : Type := mkUser {
  user_id : string
}.

(** Modelled from the spec: the channel structure (structures/channels) is
    missing; a Room has its normalized identifier, the mapping from user
    identifier to User and a Message Cache.  [messages] is [None] when the
    property is falsy, which [sweepMessages] tests. *)
Record Channel : Type := mkChannel {
  name : string;
  users : Collection.t User;
  messages : option (Collection.t Message)
}.

(** Modelled from the spec: [new channel(client, { channel: channelName })]
    of the missing structure; the room is created under the identifier it
    is given, with no users and an empty cache. *)
Definition newChannel (channelName : string) : Channel :=
  {| name := channelName;
     users := Collection.empty;
     messages := Some Collection.empty |}.

(** A parsed protocol line, as the session manager hands it to
    [eventEmmiter]: [tags.id], [prefix], [params] are what the client reads. *)
Record Frame : Type := mkFrame {
  tags : list (string * string);
  prefix : string;
  command : string;
  params : list string
}.

(** The object literal built for the 'message' event.  [reply] is a closure
    over [args[0].tags.id] and [args[0].params[0]]; the record keeps the two
    values it is bound to. *)
Record ResponseMessage : Type := mkResponseMessage {
  content : string;
  reply_id : option string;
  reply_channel : option string;
  id : option string;
  channel : option Channel;
  author : option User
}.

(** [responseMessage.toString()]: [return this.content]. *)
Definition toString (m : ResponseMessage) : string := content m.

(** An argument of [eventEmmiter]: a frame or a plain value. *)
Inductive Arg : Type :=
| AFrame (f : Frame)
| AVal (v : JsVal).

(** ** Outcomes and effects *)

Inductive Error : Type :=
| TypeError (msg : string)
| UnhandledError (args : list Arg).
  (* the Error ('Unhandled error.') that Node's [emit] throws for the event
     'error' when no listener of 'error' is registered *)

Inductive Result (A : Type) : Type :=
| Ok (a : A)
| Throw (e : Error).
Arguments Ok {A} a.
Arguments Throw {A} e.

(** What the client does to its collaborators, in program order. *)
Inductive Effect : Type :=
| LoggerCreated (debug : JsVal)            (* new LoggerC({debug}) *)
| LogDebug (msg : string)                  (* logger.debug *)
| LogWarn (msg : string)                   (* logger.warn *)
| LogFatal (msg : string)                  (* logger.fatal *)
| LogSwept (messages lifetime channels : Z) (* logger.debug of the sweep summary *)
| AutoEndLogActivate                       (* autoEndLog.activate() *)
| SetInterval (ms : Z)                     (* setInterval(sweepMessages, ms) *)
| SleeptCreated                            (* new SLEEPTManager(this) *)
| EmitMessage (m : ResponseMessage)        (* this.emit('message', responseMessage) *)
| EmitReady (a b : option Arg)             (* this.emit('ready', args[0], args[1]) *)
| EmitOther (event : string) (args : list Arg). (* this.emit(event, args) *)

(** A computation: the effects so far and a value or an exception. *)
Definition M (A : Type) : Type := (list Effect * Result A)%type.

Definition ret {A} (a : A) : M A := ([], Ok a).

Definition bind {A B} (m : M A) (k : A -> M B) : M B :=
  match m with
  | (t, Ok a) => let (t', r) := k a in (t ++ t', r)
  | (t, Throw e) => (t, Throw e)
  end.

Definition tell (e : Effect) : M unit := ([e], Ok tt).
Definition throw {A} (e : Error) : M A := ([], Throw e).

Notation "x <- m ;; k" := (bind m (fun x => k))
  (at level 61, m at next level, right associativity).
Notation "m ;; k" := (bind m (fun _ => k))
  (at level 61, right associativity).

(** [if (b) body] for a body that only acts. *)
Definition when_ (b : bool) (body : M unit) : M unit :=
  if b then body else ret tt.

(** [a.forEach(f)]. *)
Fixpoint forEach {A} (a : list A) (f : A -> M unit) : M unit :=
  match a with
  | [] => ret tt
  | x :: a' => f x ;; forEach a' f
  end.

(** Lifting a plain result into a computation without effects. *)
Definition lift {A} (r : Result A) : M A := ([], r).

(** ** Options *)

(** [process.env]: names to string values. *)
Definition Env : Type := list (string * string).

(** Modelled from the spec: Util.mergeDefault is missing (utils is not under
    src/).  Configuration the caller does not provide is taken from the
    defaults: every default key the given object does not own is added to
    it, the keys it owns keep the caller's value.  The given object itself
    is filled in and returned, so after the call [options] and
    [this.options] are one object. *)
Fixpoint mergeDefault (def given : Obj) : Obj :=
  match def with
  | [] => given
  | (key, v) :: def' =>
      mergeDefault def' (if hasOwn given key then given else given ++ [(key, v)])
  end.

(** [typeof v !== 'number' || isNaN(v)] *)
Definition notANumber (v : JsVal) : bool :=
  negb (String.eqb (typeof v) "number") || isNaN v.

(** [v > 0] for a [v] that passed the test above. *)
Definition gt0 (v : JsVal) : bool :=
  match v with JNum n => 0 <? n | _ => false end.

Section Options.

(** constants.defaultOptions, which is not under src/: the table is a
    parameter of the validation and of the constructor. *)
Variable defaultOptions : Obj.

(** [Client._validateOptions], on [this.options]. *)
Definition _validateOptions (options : Obj) : M unit :=
  when_ (notANumber (getProp options "messageCacheMaxSize"))
    (throw (TypeError "The messageMaxSize option must be a number.")) ;;
  when_ (notANumber (getProp options "messageCacheLifetime"))
    (throw (TypeError "The messageCacheLifetime option must be a number.")) ;;
  when_ (notANumber (getProp options "messageSweepInterval"))
    (throw (TypeError "The messageSweepInterval option must be a number.")) ;;
  when_ (negb (String.eqb (typeof (getProp options "fetchAllChatters")) "boolean"))
    (throw (TypeError "The fetchAllChatters option must be a boolean.")) ;;
  when_ (truthy (getProp options "disabledEvents")
         && negb (instanceofArray (getProp options "disabledEvents")))
    (throw (TypeError "The disabledEvents option must be an Array.")) ;;
  when_ (notANumber (getProp options "retryLimit"))
    (throw (TypeError "The retryLimit  options must be a number.")) ;;
  when_ (truthy (getProp options "autoLogEnd")
         && negb (String.eqb (typeof (getProp options "autoLogEnd")) "boolean"))
    (throw (TypeError "The autoLogEnd options must be a boolean.")) ;;
  when_ (truthy (getProp options "channels")
         && negb (instanceofArray (getProp options "channels")))
    (throw (TypeError "The channels options must be a array.")) ;;
  when_ (truthy (getProp options "debug")
         && negb (String.eqb (typeof (getProp options "debug")) "boolean"))
    (throw (TypeError "The debug options must be a boolean.")) ;;
  when_ (truthy (getProp options "connectedChannels")
         && negb (instanceofArray (getProp options "channels"))
         && length_gt0 (getProp options "connectedChannels"))
    (throw (TypeError "The connectedChannels options must be a array and must be empty.")) ;;
  forEach (keys options) (fun OptionName =>
    when_ (negb (includes (keys defaultOptions) OptionName))
      (tell AutoEndLogActivate ;;
       throw (TypeError ("The option: " ++ OptionName ++ " is not a valid option.")))).

End Options.

(** ** The client *)

Record Client : Type := mkClient {
  options : Obj;
  token : JsVal;
  user : JsVal;
  readyAt : JsVal;
  autoLogEnd : JsVal;
  channels : Collection.t Channel;
  (* whether [this.channels.get] has been replaced by the normalizing lookup *)
  channels_get_installed : bool;
  (* the state of the EventEmitter that [Client] extends, as far as [emit]
     itself depends on it: whether a listener of 'error' is registered *)
  hasErrorListener : bool
}.

(** The prefix enforcement the constructor writes out twice:
    [if (channelName.slice(0, 1) !== '#') channelName = '#' + channelName]. *)
Definition normalizeChannelName (channelName : string) : string :=
  if negb (String.eqb (slice channelName 0 1) "#")
  then "#" ++ channelName
  else channelName.

(** [this.channels.get(channelName)]: the arrow function of the constructor
    once it is installed, the collection's own keyed [get] before.  The
    argument is [None] for undefined. *)
Definition channels_get (c : Client) (channelName : option string)
  : Result (option Channel) :=
  if channels_get_installed c then
    match channelName with
    | None => Throw (TypeError "Cannot read properties of undefined (reading 'slice')")
    | Some n =>
        let channelName := normalizeChannelName n in
        Ok (Collection.find (fun channel => String.eqb (name channel) channelName)
              (channels c))
    end
  else
    match channelName with
    | None => Ok None
    | Some n => Ok (Collection.get (channels c) n)
    end.

(** The client after its store has been mutated: the same object, with
    the entries of [this.channels] as given. *)
Definition with_channels (c : Client) (store : Collection.t Channel) : Client :=
  {| options := options c; token := token c; user := user c;
     readyAt := readyAt c; autoLogEnd := autoLogEnd c;
     channels := store;
     channels_get_installed := channels_get_installed c;
     hasErrorListener := hasErrorListener c |}.

(** [this.channels.set(k, v)] on a client, as the session manager does on a
    join; the lookup method stays as it is. *)
Definition channels_set (c : Client) (k : string) (v : Channel) : Client :=
  with_channels c (Collection.set (channels c) k v).

(** One round of [options.channels.forEach]: the store and whether the
    lookup has been replaced. *)
Definition initChannel (st : Collection.t Channel * bool) (channelName : string)
  : Collection.t Channel * bool :=
  let channelName := normalizeChannelName channelName in
  (Collection.set (fst st) channelName (newChannel channelName), true).

(** [options.channels.forEach(...)] on the fresh collection.  The elements
    of an array are strings here; on an element that is not a string the
    source calls [slice] all the same, and throws if it has none. *)
Definition initChannels (v : JsVal) : M (Collection.t Channel * bool) :=
  match v with
  | JArr l => ret (fold_left initChannel l (Collection.empty, false))
  | JUndefined | JNull =>
      throw (TypeError "Cannot read properties of undefined (reading 'forEach')")
  | _ => throw (TypeError "options.channels.forEach is not a function")
  end.

(** The token after [Object.defineProperty(this, 'token', { writable: true })]
    and the test on [process.env]; [current] is what [this.token] reads
    before the test. *)
Definition initToken (current : JsVal) (env : Env) : JsVal :=
  if negb (truthy current) && hasOwn env "CLIENT_TOKEN"
  then match lookup env "CLIENT_TOKEN" with
       | Some v => JStr v
       | None => JUndefined
       end
  else JNull.

(** [new Client(options)], with [process.env].  The property [token] is
    defined without a value, so [this.token] reads undefined at the test.
    [super()] leaves the emitter without listeners, and the session manager
    (not under src/) is taken not to register one of 'error'. *)
Definition constructor (defaultOptions : Obj) (env : Env) (given : Obj) : M Client :=
  let options := mergeDefault defaultOptions given in
  _validateOptions defaultOptions options ;;
  tell (LoggerCreated (getProp options "debug")) ;;
  tell (LogDebug "Debug is active!") ;;
  let token := initToken JUndefined env in
  let autoLogEnd := getProp options "autoLogEnd" in
  when_ (truthy (getProp options "debug") && truthy autoLogEnd)
    (tell (LogWarn "AutoLogEnd disabled because debug is enabled")) ;;
  when_ (truthy autoLogEnd && negb (truthy (getProp options "debug")))
    (tell AutoEndLogActivate) ;;
  st <- initChannels (getProp options "channels") ;;
  when_ (gt0 (getProp options "messageSweepInterval"))
    (match getProp options "messageSweepInterval" with
     | JNum n => tell (SetInterval (n * 1000))
     | _ => ret tt
     end) ;;
  tell SleeptCreated ;;
  ret {| options := options; token := token; user := JNull; readyAt := JNull;
         autoLogEnd := autoLogEnd; channels := fst st;
         channels_get_installed := snd st;
         hasErrorListener := false |}.

(** ** Re-emission of events *)

(** [this.emit(event, ...)] of Node's EventEmitter, which [Client] extends.
    The call is recorded.  For the event 'error' with no listener of
    'error' registered, [emit] itself throws an Error; [payload] is what
    was passed with the event.  What the listeners do is the application's
    and is not part of the model. *)
Definition emit (c : Client) (event : string) (call : Effect) (payload : list Arg)
  : M unit :=
  tell call ;;
  when_ (String.eqb event "error" && negb (hasErrorListener c))
    (throw (UnhandledError payload)).

(** [Client.eventEmmiter(event, ...args)].  The properties of the literal
    are evaluated in order: [content], [id], [channel], [author]. *)
Definition eventEmmiter (c : Client) (event : string) (args : list Arg) : M unit :=
  if String.eqb event "message" then
    match nth_error args 0 with
    | Some (AFrame f) =>
        match nth_error (params f) 1 with
        | None =>
            throw (TypeError "Cannot read properties of undefined (reading 'toString')")
        | Some text =>
            let room := nth_error (params f) 0 in
            ch <- lift (channels_get c room) ;;
            ch' <- lift (channels_get c room) ;;
            match ch' with
            | None =>
                throw (TypeError "Cannot read properties of undefined (reading 'users')")
            | Some r =>
                let login := slice (prefix f) 0 (indexOf "!" (prefix f)) in
                emit c event
                  (EmitMessage
                     {| content := text;
                        reply_id := lookup (tags f) "id";
                        reply_channel := room;
                        id := lookup (tags f) "id";
                        channel := ch;
                        author := Collection.get (users r) login |})
                  []
            end
        end
    | _ => throw (TypeError "Cannot read properties of undefined (reading 'params')")
    end
  else if String.eqb event "ready" then
    emit c event (EmitReady (nth_error args 0) (nth_error args 1)) []
  else
    emit c event (EmitOther event args) args.

(** ** Sweeping the message caches *)

(** The predicate handed to the cache:
    [now - message.createdTimestamp > lifetimeMs]. *)
Definition sweepPredicate (now lifetimeMs : Z) (message : Message) : bool :=
  lifetimeMs <? now - createdTimestamp message.

(** A channel whose cache has been swept in place. *)
Definition with_messages (channel : Channel) (cache : Collection.t Message) : Channel :=
  {| name := name channel; users := users channel; messages := Some cache |}.

(** The loop over [this.channels.values()], with the two counters. *)
Fixpoint sweepLoop (now lifetimeMs : Z) (todo : Collection.t Channel)
    (nchannels nmessages : Z) : Z * Z * Collection.t Channel :=
  match todo with
  | [] => (nchannels, nmessages, [])
  | (k, channel) :: todo' =>
      match messages channel with
      | None =>
          let '(cs, ms, rest) := sweepLoop now lifetimeMs todo' nchannels nmessages in
          (cs, ms, (k, channel) :: rest)
      | Some cache =>
          let (n, kept) := Collection.sweep (sweepPredicate now lifetimeMs) cache in
          let '(cs, ms, rest) :=
            sweepLoop now lifetimeMs todo' (nchannels + 1) (nmessages + n) in
          (cs, ms, (k, with_messages channel kept) :: rest)
      end
  end.

(** What a call of [sweepMessages] comes to: the number it returns and the
    client afterwards, or the call of [logger.fatal] on a lifetime that is
    not a number (the logger is not under src/; the model stops there). *)
Inductive SweepOutcome : Type :=
| Returned (n : Z) (c : Client)
| Fatal.

(** [Client.sweepMessages(lifetime = this.options.messageCacheLifetime)] at
    the time [now] that [Date.now()] gives. *)
Definition sweepMessages (now : Z) (lifetimeArg : JsVal) (c : Client)
  : list Effect * SweepOutcome :=
  let lifetime :=
    match lifetimeArg with
    | JUndefined => getProp (options c) "messageCacheLifetime"
    | v => v
    end in
  match lifetime with
  | JNum lifetime =>
      if lifetime <=? 0 then
        ([LogDebug "Didn't sweep messages - lifetime is unlimited"], Returned (-1) c)
      else
        let lifetimeMs := lifetime * 1000 in
        let '(nchannels, nmessages, swept) :=
          sweepLoop now lifetimeMs (channels c) 0 0 in
        ([LogSwept nmessages lifetime nchannels],
         Returned nmessages (with_channels c swept))
  | _ => ([LogFatal "The lifetime must be a number."], Fatal)
  end.

(** ** What the specification says, for comparison *)

(** The timestamp the specification sweeps by: the edit timestamp when
    present, else the creation timestamp. *)
Definition effectiveTimestamp (m : Message) : Z :=
  match editedTimestamp m with
  | Some e => e
  | None => createdTimestamp m
  end.

(** The removal criterion of the specification and of the comment above
    [sweepMessages]: staleness by the effective timestamp. *)
Definition specPredicate (now lifetimeMs : Z) (m : Message) : bool :=
  lifetimeMs <? now - effectiveTimestamp m.

(** All the messages cached by a store, channel by channel. *)
Definition cachedMessages (cs : Collection.t Channel) : list Message :=
  flat_map (fun channel =>
              match messages channel with
              | Some cache => Collection.values cache
              | None => []
              end) (Collection.values cs).

(** ** A table of defaults to run the client on *)

(** Modelled from the spec: constants.defaultOptions is missing; this table
    holds the options that [_validateOptions] reads, with the values of the
    configuration surface of the spec (unbounded retention, no periodic
    sweep, no initial room). *)
Definition sampleDefaultOptions : Obj :=
  [ ("autoLogEnd", JBool true);
    ("channels", JArr []);
    ("debug", JBool false);
    ("messageCacheMaxSize", JNum 200);
    ("messageCacheLifetime", JNum 0);
    ("messageSweepInterval", JNum 0);
    ("fetchAllChatters", JBool false);
    ("disabledEvents", JArr []);
    ("retryLimit", JNum 5);
    ("connectedChannels", JArr []) ].

(** A client to run the operations on: constructed on the table above with
    the room list ['room'] and a token in the environment. *)
Definition exampleEnv : Env := [("CLIENT_TOKEN", "oauth:abc")].

Definition exampleGiven : Obj := [("channels", JArr ["room"])].

Definition exampleTrace : list Effect :=
  [LoggerCreated (JBool false); LogDebug "Debug is active!";
   AutoEndLogActivate; SleeptCreated].

Definition exampleClient : Client :=
  {| options := mergeDefault sampleDefaultOptions exampleGiven;
     token := JStr "oauth:abc";
     user := JNull;
     readyAt := JNull;
     autoLogEnd := JBool true;
     channels := [("#room", newChannel "#room")];
     channels_get_installed := true;
     hasErrorListener := false |}.

(** The client constructed with no option at all and an empty environment. *)
Definition bareClient : Client :=
  {| options := mergeDefault sampleDefaultOptions [];
     token := JNull;
     user := JNull;
     readyAt := JNull;
     autoLogEnd := JBool true;
     channels := [];
     channels_get_installed := false;
     hasErrorListener := false |}.

(** Rooms with cached messages, at the time 5000 ms: [oldEdited] was created
    5 s ago and edited half a second ago, [fresh] was created 0.2 s ago, and
    [backdated] carries an edit timestamp older than its creation. *)
Definition oldEdited : Message := mkMessage "m1" "hi" 0 (Some 4500).
Definition fresh : Message := mkMessage "m2" "yo" 4800 None.
Definition backdated : Message := mkMessage "m3" "hm" 5000 (Some 0).

Definition roomWith (cache : Collection.t Message) : Channel :=
  {| name := "#room";
     users := [("alice", mkUser "alice")];
     messages := Some cache |}.

Definition editedClient : Client :=
  channels_set exampleClient "#room" (roomWith [("m1", oldEdited); ("m2", fresh)]).

Definition backdatedClient : Client :=
  channels_set exampleClient "#room" (roomWith [("m3", backdated)]).

(** Chat frames: one for the room of [editedClient], one for a room that no
    client above has joined. *)
Definition helloFrame : Frame :=
  mkFrame [("id", "abc-1")] "alice!alice@alice.tmi.twitch.tv" "PRIVMSG"
    ["#room"; "hello"].

Definition strayFrame : Frame :=
  mkFrame [("id", "abc-2")] "alice!alice@alice.tmi.twitch.tv" "PRIVMSG"
    ["#elsewhere"; "hello"].

(** A channel after the sweep the source performs on its cache. *)
Definition sweptChannel (now lifetimeMs : Z) (channel : Channel) : Channel :=
  match messages channel with
  | None => channel
  | Some cache =>
      with_messages channel
        (filter (fun kv => negb (sweepPredicate now lifetimeMs (snd kv))) cache)
  end.

(** Every room of the store is the one created for its key. *)
Definition storeOK (st : Collection.t Channel) : Prop :=
  forall k v, In (k, v) st -> v = newChannel k.

(** The recognized options are valid: none of the ten tests that
    [_validateOptions] makes on the options it knows fires. *)
Definition recognizedValid (o : Obj) : bool :=
  negb (notANumber (getProp o "messageCacheMaxSize"))
  && negb (notANumber (getProp o "messageCacheLifetime"))
  && negb (notANumber (getProp o "messageSweepInterval"))
  && negb (negb (String.eqb (typeof (getProp o "fetchAllChatters")) "boolean"))
  && negb (truthy (getProp o "disabledEvents")
           && negb (instanceofArray (getProp o "disabledEvents")))
  && negb (notANumber (getProp o "retryLimit"))
  && negb (truthy (getProp o "autoLogEnd")
           && negb (String.eqb (typeof (getProp o "autoLogEnd")) "boolean"))
  && negb (truthy (getProp o "channels")
           && negb (instanceofArray (getProp o "channels")))
  && negb (truthy (getProp o "debug")
           && negb (String.eqb (typeof (getProp o "debug")) "boolean"))
  && negb (truthy (getProp o "connectedChannels")
           && negb (instanceofArray (getProp o "channels"))
           && length_gt0 (getProp o "connectedChannels")).

(** A key that is not an option of the default set. *)
Definition unknownOption (defaultOptions : Obj) (k : string) : bool :=
  negb (includes (keys defaultOptions) k).

(** The first key of an object, in enumeration order, that the default set
    does not have. *)
Definition firstUnknown (defaultOptions o : Obj) : option string :=
  List.find (unknownOption defaultOptions) (keys o).

(** An invalid configuration value as the specification lists them:
    a numeric option that is not a number, [fetchAllChatters] that is not a
    boolean, [disabledEvents] or [channels] that is not an array. *)
Definition invalidAsListed (k : string) (v : JsVal) : Prop :=
  (In k ["messageCacheLifetime"; "messageCacheMaxSize";
         "messageSweepInterval"; "retryLimit"] /\ notANumber v = true)
  \/ (k = "fetchAllChatters" /\ typeof v <> "boolean")
  \/ (k = "disabledEvents" /\ instanceofArray v = false)
  \/ (k = "channels" /\ instanceofArray v = false).

(** The values the constructor refuses: as above, but a [disabledEvents]
    that is not an array is refused only when it is truthy. *)
Definition invalidRefused (k : string) (v : JsVal) : Prop :=
  (In k ["messageCacheLifetime"; "messageCacheMaxSize";
         "messageSweepInterval"; "retryLimit"] /\ notANumber v = true)
  \/ (k = "fetchAllChatters" /\ typeof v <> "boolean")
  \/ (k = "disabledEvents" /\ instanceofArray v = false /\ truthy v = true)
  \/ (k = "channels" /\ instanceofArray v = false).

(** The store and the lookup switch that the loop over the initial list
    builds. *)
Definition initialStore (l : list string) : Collection.t Channel * bool :=
  fold_left initChannel l (Collection.empty, false).

(** A run of [this.channels.set] calls on a client. *)
Definition channels_set_all (c : Client) (joins : list (string * Channel)) : Client :=
  fold_left (fun c kv => channels_set c (fst kv) (snd kv)) joins c.

(** ** The rest of the facade *)

(** [Client.uptime()]: the value the promise resolves to,
    [Date.now() - this.readyAt], at the time [now].  [readyAt] is null
    until the session manager (not under src/) stores the time of
    readiness; a time is held as its millisecond value.  null counts as 0,
    undefined and NaN give NaN, a boolean counts as 0 or 1; the conversion
    of a string, an array or another object to a number is not modelled
    ([None]). *)
Definition uptime (now : Z) (c : Client) : option JsVal :=
  match readyAt c with
  | JNull => Some (JNum (now - 0))
  | JNum t => Some (JNum (now - t))
  | JUndefined | JNaN => Some JNaN
  | JBool b => Some (JNum (now - (if b then 1 else 0)))
  | JStr _ | JArr _ | JObj _ => None
  end.

(** The effects of a construction that returns, in order, read off the
    constructor: logger, the debug line, the warning or the activation of
    autoEndLog, the sweep timer, the session manager. *)
Definition constructorTrace (o : Obj) : list Effect :=
  [LoggerCreated (getProp o "debug"); LogDebug "Debug is active!"]
  ++ (if truthy (getProp o "debug") && truthy (getProp o "autoLogEnd")
      then [LogWarn "AutoLogEnd disabled because debug is enabled"] else [])
  ++ (if truthy (getProp o "autoLogEnd") && negb (truthy (getProp o "debug"))
      then [AutoEndLogActivate] else [])
  ++ (match getProp o "messageSweepInterval" with
      | JNum n => if 0 <? n then [SetInterval (n * 1000)] else []
      | _ => []
      end)
  ++ [SleeptCreated].

(** The client a construction returns, from the merged options, the
    environment and the initial room list. *)
Definition constructedClient (o : Obj) (env : Env) (l : list string) : Client :=
  {| options := o;
     token := initToken JUndefined env;
     user := JNull;
     readyAt := JNull;
     autoLogEnd := getProp o "autoLogEnd";
     channels := fst (initialStore l);
     channels_get_installed := snd (initialStore l);
     hasErrorListener := false |}.

(** The distinct elements of a list of names, each at its first place. *)
Fixpoint firstOccurrences (seen l : list string) : list string :=
  match l with
  | [] => []
  | k :: l' =>
      if includes seen k then firstOccurrences seen l'
      else k :: firstOccurrences (seen ++ [k]) l'
  end.


(** The identifier of a room as the specification has it, written out on
    the name: the name itself when its first character is the sigil, else
    the name with one '#' in front. *)
Definition withSigil (n : string) : string :=
  match n with
  | String a _ => if Ascii.eqb a "#" then n else String "#" n
  | EmptyString => String "#" n
  end.

(** A construction with a room name that starts with two sigils. *)
Definition doubleSigilGiven : Obj := [("channels", JArr ["##x"])].

Definition doubleSigilClient : Client :=
  constructedClient (mergeDefault sampleDefaultOptions doubleSigilGiven) [] ["##x"].

(** The users of a room are stored under their identifiers. *)
Definition usersById (r : Channel) : Prop :=
  forall k u, In (k, u) (users r) -> user_id u = k.

(** No cached message carries an edit timestamp earlier than its creation
    timestamp: a message is edited after it was created. *)
Definition editsFollowCreation (cs : Collection.t Channel) : Prop :=
  forall m, In m (cachedMessages cs) ->
  forall e, editedTimestamp m = Some e -> createdTimestamp m <= e.

(** * Properties *)

(** ** Strings *)

Lemma slice_first_cons a s : slice (String a s) 0 1 = String a "".
Proof.
  unfold slice. cbn [String.length].
  replace (0 <? 0) with false by reflexivity.
  replace (1 <? 0) with false by reflexivity.
  rewrite Z.min_l by lia. rewrite Z.min_l by lia.
  change (Z.to_nat (1 - 0)) with 1%nat. change (Z.to_nat 0) with 0%nat.
  cbn. destruct s; reflexivity.
Qed.

Lemma slice_first_empty : slice "" 0 1 = "".
Proof. reflexivity. Qed.

Lemma normalize_sigil s : slice (normalizeChannelName s) 0 1 = "#".
Proof.
  unfold normalizeChannelName.
  destruct (String.eqb (slice s 0 1) "#") eqn:E; cbn [negb].
  - now apply String.eqb_eq in E.
  - apply slice_first_cons.
Qed.

Lemma normalize_with_sigil s :
  slice s 0 1 = "#" -> normalizeChannelName s = s.
Proof.
  intros H. unfold normalizeChannelName. rewrite H. reflexivity.
Qed.

Lemma normalize_bare s :
  slice s 0 1 <> "#" -> normalizeChannelName s = ("#" ++ s)%string.
Proof.
  intros H. unfold normalizeChannelName.
  destruct (String.eqb (slice s 0 1) "#") eqn:E; [|reflexivity].
  apply String.eqb_eq in E. contradiction.
Qed.

Lemma normalize_idempotent s :
  normalizeChannelName (normalizeChannelName s) = normalizeChannelName s.
Proof. apply normalize_with_sigil, normalize_sigil. Qed.

Lemma indexOf_from_absent c s i :
  0 <= i -> indexOf_from c s i = -1 -> occurs c s = false.
Proof.
  revert i. induction s as [|x s IH]; intros i Hi H; cbn in *; [reflexivity|].
  destruct (Ascii.eqb x c); [lia|].
  cbn. apply (IH (i + 1)); [lia|assumption].
Qed.

Lemma indexOf_from_append c a rest i :
  occurs c a = false ->
  indexOf_from c (a ++ String c rest) i = i + Z.of_nat (String.length a).
Proof.
  revert i. induction a as [|x a IH]; intros i H; cbn [append indexOf_from String.length].
  - rewrite Ascii.eqb_refl. cbn. lia.
  - cbn in H. apply orb_false_iff in H as [Hx Ha].
    rewrite Hx, IH by assumption. lia.
Qed.

Lemma substring_prefix a rest :
  substring 0 (String.length a) (a ++ rest) = a.
Proof.
  induction a as [|x a IH]; cbn.
  - destruct rest; reflexivity.
  - now rewrite IH.
Qed.

Lemma length_append a b :
  String.length (a ++ b) = (String.length a + String.length b)%nat.
Proof. induction a; cbn; congruence. Qed.

(** The login before the first '!' of a prefix. *)
Lemma slice_login a rest :
  indexOf "!" a = -1 ->
  slice (a ++ String "!" rest) 0 (indexOf "!" (a ++ String "!" rest)) = a.
Proof.
  intros H. apply indexOf_from_absent in H; [|lia].
  unfold indexOf. rewrite indexOf_from_append by assumption.
  unfold slice. rewrite length_append. cbn [String.length].
  replace (0 <? 0) with false by reflexivity.
  replace (0 + Z.of_nat (String.length a) <? 0) with false
    by (symmetry; apply Z.ltb_ge; lia).
  rewrite !Z.min_l by lia.
  change (Z.to_nat 0) with 0%nat.
  replace (Z.to_nat (0 + Z.of_nat (String.length a) - 0)) with (String.length a) by lia.
  apply substring_prefix.
Qed.

(** ** Objects and collections *)

Lemma lookup_app {V} (o o' : list (string * V)) k :
  lookup (o ++ o') k =
  match lookup o k with Some v => Some v | None => lookup o' k end.
Proof.
  induction o as [|[k' v] o IH]; cbn; [reflexivity|].
  destruct (String.eqb k' k); [reflexivity|apply IH].
Qed.

Lemma lookup_In {V} (o : list (string * V)) k v :
  lookup o k = Some v -> In (k, v) o.
Proof.
  induction o as [|[k' v'] o IH]; cbn; [discriminate|].
  destruct (String.eqb k' k) eqn:E.
  - apply String.eqb_eq in E. intros [= ->]. subst. now left.
  - intros H. right. now apply IH.
Qed.

Lemma lookup_None_keys {V} (o : list (string * V)) k :
  lookup o k = None <-> ~ In k (keys o).
Proof.
  induction o as [|[k' v'] o IH]; cbn; [tauto|].
  destruct (String.eqb k' k) eqn:E.
  - apply String.eqb_eq in E. split; [discriminate|]. intros H. exfalso. auto.
  - apply String.eqb_neq in E. rewrite IH. tauto.
Qed.

Lemma includes_In a k : includes a k = true <-> In k a.
Proof.
  unfold includes. rewrite existsb_exists. split.
  - intros [x [Hx E]]. apply String.eqb_eq in E. now subst.
  - intros H. exists k. split; [assumption|apply String.eqb_refl].
Qed.

Lemma mergeDefault_lookup d : forall given k,
  lookup (mergeDefault d given) k =
  match lookup given k with Some v => Some v | None => lookup d k end.
Proof.
  induction d as [|[key v] d IH]; intros given k; cbn.
  - destruct (lookup given k); reflexivity.
  - rewrite IH. unfold hasOwn.
    destruct (lookup given key) eqn:Hk.
    + destruct (lookup given k) eqn:Hg; [reflexivity|].
      destruct (String.eqb key k) eqn:E; [|reflexivity].
      apply String.eqb_eq in E. subst. congruence.
    + rewrite lookup_app. destruct (lookup given k); [reflexivity|].
      cbn. destruct (String.eqb key k); reflexivity.
Qed.

Lemma mergeDefault_getProp d given k v :
  lookup given k = Some v -> getProp (mergeDefault d given) k = v.
Proof.
  intros H. unfold getProp. now rewrite mergeDefault_lookup, H.
Qed.

Lemma mergeDefault_keys d : forall given,
  exists extra, keys (mergeDefault d given) = keys given ++ extra
                /\ forall k, In k extra -> In k (keys d).
Proof.
  induction d as [|[key v] d IH]; intros given; cbn.
  - exists []. rewrite app_nil_r. split; [reflexivity|contradiction].
  - destruct (hasOwn given key); cbv iota.
    + destruct (IH given) as [extra [E H]]. exists extra. split; [assumption|].
      intros k Hk. right. now apply H.
    + destruct (IH (given ++ [(key, v)])) as [extra [E H]].
      exists (key :: extra). split.
      * unfold keys in *. rewrite E, map_app, <- app_assoc. reflexivity.
      * intros k [->|Hk]; [now left|right; now apply H].
Qed.

Lemma find_app_none {A} (f : A -> bool) l l' :
  (forall x, In x l' -> f x = false) ->
  List.find f (l ++ l') = List.find f l.
Proof.
  intros H. induction l as [|x l IH]; cbn.
  - induction l' as [|y l' IH']; cbn; [reflexivity|].
    rewrite (H y) by now left. apply IH'. intros z Hz. apply H. now right.
  - destruct (f x); [reflexivity|apply IH].
Qed.

Lemma firstUnknown_merge d given :
  firstUnknown d (mergeDefault d given) = firstUnknown d given.
Proof.
  unfold firstUnknown. destruct (mergeDefault_keys d given) as [extra [E H]].
  rewrite E. apply find_app_none. intros k Hk. unfold unknownOption.
  apply H, includes_In in Hk. now rewrite Hk.
Qed.

(** ** Computations *)

Lemma bind_ok_nil {A B} (a : A) (k : A -> M B) : bind ([], Ok a) k = k a.
Proof. unfold bind. destruct (k a). reflexivity. Qed.

Lemma bind_throw {A B} t e (k : A -> M B) : bind (t, Throw e) k = (t, Throw e).
Proof. reflexivity. Qed.

Lemma when_false body : when_ false body = ([], Ok tt).
Proof. reflexivity. Qed.

Lemma when_true body : when_ true body = body.
Proof. reflexivity. Qed.

(** ** Validation of the options *)

Lemma forEach_keys d ks :
  forEach ks (fun OptionName =>
    when_ (negb (includes (keys d) OptionName))
      (tell AutoEndLogActivate ;;
       throw (TypeError ("The option: " ++ OptionName ++ " is not a valid option.")))) =
  match List.find (unknownOption d) ks with
  | Some k =>
      ([AutoEndLogActivate],
       Throw (TypeError ("The option: " ++ k ++ " is not a valid option.")))
  | None => ([], Ok tt)
  end.
Proof.
  induction ks as [|k ks IH]; [reflexivity|].
  cbn [forEach List.find]. unfold unknownOption at 1.
  destruct (includes (keys d) k); cbn [negb].
  - rewrite when_false, bind_ok_nil. apply IH.
  - reflexivity.
Qed.

Ltac step_check :=
  match goal with
  | |- context [when_ ?b (throw ?e)] =>
      destruct b eqn:?;
      [ rewrite when_true | rewrite when_false, bind_ok_nil ]
  end.

Lemma validate_recognized d o :
  recognizedValid o = true ->
  _validateOptions d o =
  match firstUnknown d o with
  | Some k =>
      ([AutoEndLogActivate],
       Throw (TypeError ("The option: " ++ k ++ " is not a valid option.")))
  | None => ([], Ok tt)
  end.
Proof.
  unfold recognizedValid, _validateOptions, firstUnknown.
  repeat (step_check; [cbn [negb andb]; intros H; discriminate H|]).
  intros _. apply forEach_keys.
Qed.

Lemma validate_unrecognized d o :
  recognizedValid o = false ->
  exists msg, _validateOptions d o = ([], Throw (TypeError msg)).
Proof.
  unfold recognizedValid, _validateOptions.
  repeat (step_check; [intros _; eexists; reflexivity|]).
  cbn [negb andb]. intros H. discriminate H.
Qed.

Lemma validate_trace d o tr r :
  _validateOptions d o = (tr, r) -> ~ In SleeptCreated tr.
Proof.
  destruct (recognizedValid o) eqn:V.
  - rewrite (validate_recognized d o V).
    destruct (firstUnknown d o); intros [= <- <-]; cbn; intuition discriminate.
  - destruct (validate_unrecognized d o V) as [msg ->].
    intros [= <- <-]. cbn. tauto.
Qed.

(** ** The constructor *)

Ltac run_constructor o :=
  destruct (getProp o "channels") eqn:?; unfold initChannels;
  destruct (truthy (getProp o "debug") && truthy (getProp o "autoLogEnd"));
  destruct (truthy (getProp o "autoLogEnd") && negb (truthy (getProp o "debug")));
  try (destruct (getProp o "messageSweepInterval") as [| |?|n| |?|?|?];
       cbn [gt0]; try destruct (0 <? n));
  unfold when_, bind, tell, ret, throw; cbn [app fst snd].

(** A construction that returns went through the validation, found an
    array of rooms and created the session manager last. *)
Lemma constructor_ok d env given tr c :
  constructor d env given = (tr, Ok c) ->
  recognizedValid (mergeDefault d given) = true
  /\ firstUnknown d given = None
  /\ (exists l, getProp (mergeDefault d given) "channels" = JArr l
                /\ channels c = fst (initialStore l)
                /\ channels_get_installed c = snd (initialStore l))
  /\ token c = initToken JUndefined env
  /\ options c = mergeDefault d given
  /\ In SleeptCreated tr.
Proof.
  unfold constructor.
  destruct (recognizedValid (mergeDefault d given)) eqn:V.
  2:{ destruct (validate_unrecognized d _ V) as [msg ->]. discriminate. }
  rewrite (validate_recognized d _ V), firstUnknown_merge.
  destruct (firstUnknown d given) eqn:U; [discriminate|].
  rewrite bind_ok_nil.
  set (o := mergeDefault d given) in *.
  run_constructor o; try discriminate.
  all: intros [= <- <-]; cbn [token options channels channels_get_installed].
  all: repeat split; try (eexists; repeat split; reflexivity).
  all: cbn; tauto.
Qed.

(** A construction that throws has not created the session manager. *)
Lemma constructor_throw d env given tr e :
  constructor d env given = (tr, Throw e) -> ~ In SleeptCreated tr.
Proof.
  unfold constructor.
  destruct (_validateOptions d (mergeDefault d given)) as [t0 [[]|e0]] eqn:V.
  2:{ cbn. intros [= <- <-]. eapply validate_trace, V. }
  pose proof (validate_trace _ _ _ _ V) as H0.
  set (o := mergeDefault d given) in *.
  run_constructor o; try discriminate.
  all: intros [= <- <-]; rewrite in_app_iff; cbn; intuition discriminate.
Qed.

(** The constructor throws TypeErrors only. *)
Lemma constructor_throws_TypeError d env given tr e :
  constructor d env given = (tr, Throw e) -> exists msg, e = TypeError msg.
Proof.
  unfold constructor.
  destruct (recognizedValid (mergeDefault d given)) eqn:V.
  2:{ destruct (validate_unrecognized d _ V) as [msg ->].
      intros [= <- <-]. eauto. }
  rewrite (validate_recognized d _ V).
  destruct (firstUnknown d (mergeDefault d given)); [intros [= <- <-]; eauto|].
  rewrite bind_ok_nil.
  set (o := mergeDefault d given) in *.
  run_constructor o; intros H; try discriminate H; injection H as <- <-; eauto.
Qed.

(** C5 (as the code has it).  An options object that holds a numeric option
    that is not a number, a [fetchAllChatters] that is not a boolean, a
    [channels] that is not an array, or a truthy [disabledEvents] that is
    not an array makes the construction throw a TypeError, and the session
    manager has not been created when it does. *)
Theorem invalid_option_throws d env given k v :
  lookup given k = Some v ->
  invalidRefused k v ->
  exists tr msg,
    constructor d env given = (tr, Throw (TypeError msg))
    /\ ~ In SleeptCreated tr.
Proof.
  intros Hk Hv.
  destruct (constructor d env given) as [tr [c|e]] eqn:E.
  2:{ destruct (constructor_throws_TypeError _ _ _ _ _ E) as [msg ->].
      exists tr, msg. split; [reflexivity|]. eapply constructor_throw, E. }
  exfalso. apply constructor_ok in E as (V & _ & (l & C & _) & _).
  pose proof (mergeDefault_getProp d given k v Hk) as G.
  unfold recognizedValid in V.
  repeat (apply andb_true_iff in V as [V ?]).
  destruct Hv as [[Hin N]|[[-> T]|[[-> [A Tr]]|[-> A]]]].
  - cbn in Hin.
    destruct Hin as [<-|[<-|[<-|[<-|[]]]]]; rewrite G in *;
      rewrite N in *; discriminate.
  - rewrite G in *. rewrite negb_involutive in *.
    apply T. now apply String.eqb_eq.
  - rewrite G in *. rewrite A, Tr in *. discriminate.
  - rewrite G in C. rewrite C in A. discriminate.
Qed.

(** The theorem at an input: a retry limit given as a string. *)
Lemma invalid_option_throws_witness :
  exists tr msg,
    constructor sampleDefaultOptions [] [("retryLimit", JStr "3")]
    = (tr, Throw (TypeError msg))
    /\ ~ In SleeptCreated tr.
Proof.
  apply (invalid_option_throws sampleDefaultOptions [] [("retryLimit", JStr "3")]
           "retryLimit" (JStr "3")).
  - reflexivity.
  - left. split; [cbn; tauto|reflexivity].
Defined.

(** C5 as stated fails: [disabledEvents: 0] is not an array, and the client
    is constructed, session manager included. *)
Lemma falsy_disabledEvents_constructs :
  invalidAsListed "disabledEvents" (JNum 0)
  /\ exists tr c,
       constructor sampleDefaultOptions [] [("disabledEvents", JNum 0)] = (tr, Ok c)
       /\ In SleeptCreated tr.
Proof.
  split.
  - right. right. left. split; reflexivity.
  - eexists. eexists. split; [reflexivity|]. cbn. tauto.
Qed.






(** ** The channel store *)

Lemma set_lookup {V} (c : Collection.t V) k v k' :
  lookup (Collection.set c k v) k' =
  if String.eqb k k' then Some v else lookup c k'.
Proof.
  induction c as [|[k0 v0] c IH]; cbn.
  - reflexivity.
  - destruct (String.eqb k0 k) eqn:E; cbn.
    + apply String.eqb_eq in E. subst k0.
      destruct (String.eqb k k'); reflexivity.
    + rewrite IH. destruct (String.eqb k0 k') eqn:E'; [|reflexivity].
      apply String.eqb_eq in E'. subst k0. now rewrite String.eqb_sym, E.
Qed.

Lemma set_In {V} (c : Collection.t V) k v k' v' :
  In (k', v') (Collection.set c k v) -> In (k', v') c \/ (k', v') = (k, v).
Proof.
  induction c as [|[k0 v0] c IH]; cbn.
  - intros [H|[]]. right. now symmetry.
  - destruct (String.eqb k0 k) eqn:E; cbn.
    + apply String.eqb_eq in E. subst k0.
      intros [H|H]; [right; now symmetry|left; now right].
    + intros [H|H]; [left; now left|].
      destruct (IH H); [left; now right|now right].
Qed.

Lemma storeOK_find st k :
  storeOK st ->
  Collection.find (fun channel => String.eqb (name channel) k) st = lookup st k.
Proof.
  unfold Collection.find, Collection.values.
  induction st as [|[k0 v0] st IH]; intros H; cbn; [reflexivity|].
  rewrite (H k0 v0) by now left. cbn [name newChannel].
  destruct (String.eqb k0 k); [reflexivity|].
  apply IH. intros k' v' Hin. apply H. now right.
Qed.

Lemma initChannels_fold l : forall st b,
  storeOK st ->
  storeOK (fst (fold_left initChannel l (st, b)))
  /\ (forall k,
        lookup (fst (fold_left initChannel l (st, b))) k =
        if includes (map normalizeChannelName l) k
        then Some (newChannel k) else lookup st k)
  /\ snd (fold_left initChannel l (st, b)) =
     match l with [] => b | _ => true end.
Proof.
  induction l as [|n l IH]; intros st b H; cbn [fold_left].
  - split; [assumption|split; [intros k|]; reflexivity].
  - unfold initChannel at 2 4 6. cbn [fst].
    set (k0 := normalizeChannelName n).
    assert (H' : storeOK (Collection.set st k0 (newChannel k0))).
    { intros k v Hin. apply set_In in Hin as [Hin|[= -> ->]]; [now apply H|reflexivity]. }
    destruct (IH (Collection.set st k0 (newChannel k0)) true H') as (A & B & C).
    split; [assumption|split].
    + intros k. rewrite B, set_lookup. cbn [map includes existsb].
      fold (includes (map normalizeChannelName l) k). fold k0.
      rewrite (String.eqb_sym k k0).
      destruct (String.eqb k0 k) eqn:E; cbn [orb]; [|reflexivity].
      apply String.eqb_eq in E. subst k.
      destruct (includes (map normalizeChannelName l) k0); reflexivity.
    + rewrite C. destruct l; reflexivity.
Qed.

Lemma initialStore_spec l :
  storeOK (fst (initialStore l))
  /\ (forall k,
        lookup (fst (initialStore l)) k =
        if includes (map normalizeChannelName l) k
        then Some (newChannel k) else None)
  /\ snd (initialStore l) = match l with [] => false | _ => true end.
Proof.
  apply (initChannels_fold l Collection.empty false). intros k v [].
Qed.

(** The two example clients are what the constructor returns. *)
Lemma exampleClient_constructed :
  constructor sampleDefaultOptions exampleEnv exampleGiven
  = (exampleTrace, Ok exampleClient).
Proof. reflexivity. Qed.

Lemma bareClient_constructed :
  constructor sampleDefaultOptions [] [] = (exampleTrace, Ok bareClient).
Proof. reflexivity. Qed.

(** With a room in the initial list the lookup is the normalizing one, and
    it answers by the normalized name. *)
Lemma channels_get_initial d env given tr c l s :
  constructor d env given = (tr, Ok c) ->
  getProp (mergeDefault d given) "channels" = JArr l ->
  l <> [] ->
  channels_get c (Some s) =
  Ok (if includes (map normalizeChannelName l) (normalizeChannelName s)
      then Some (newChannel (normalizeChannelName s)) else None).
Proof.
  intros E C Hl. apply constructor_ok in E as (_ & _ & (l' & C' & St & Inst) & _).
  rewrite C in C'. injection C' as <-.
  destruct (initialStore_spec l) as (OK & L & I).
  unfold channels_get. rewrite Inst, I, St.
  destruct l; [contradiction|].
  now rewrite storeOK_find, L by assumption.
Qed.

Lemma normalize_withSigil s : normalizeChannelName s = withSigil s.
Proof.
  unfold normalizeChannelName, withSigil. destruct s as [|a s].
  - reflexivity.
  - rewrite slice_first_cons. cbn [String.eqb].
    destruct (Ascii.eqb a "#"); reflexivity.
Qed.

(** C6 (as the code has it).  Every name of the initial channel list has
    its room stored under the identifier with the sigil: the name itself
    when it starts with '#', else '#' and the name.  The room is the one
    named by that identifier.  The lookup returns it for the name as
    given, for the identifier, and for every name whose identifier it is:
    so for the name without the sigil when what follows the sigil does not
    start with another '#'.  Every lookup is the keyed one at the
    identifier of its argument, and a name with no room gives undefined,
    not an exception. *)
Theorem initial_channels_lookup d env given tr c l n :
  constructor d env given = (tr, Ok c) ->
  getProp (mergeDefault d given) "channels" = JArr l ->
  In n l ->
  let k := withSigil n in
  let room := newChannel k in
  Collection.get (channels c) k = Some room
  /\ name room = k
  /\ channels_get c (Some n) = Ok (Some room)
  /\ channels_get c (Some k) = Ok (Some room)
  /\ (forall s, withSigil s = k -> channels_get c (Some s) = Ok (Some room))
  /\ (forall b, n = String "#" b -> (forall b', b <> String "#" b') ->
        channels_get c (Some b) = Ok (Some room))
  /\ (forall s,
        channels_get c (Some s) = Ok (Collection.get (channels c) (withSigil s)))
  /\ (forall s, ~ In (withSigil s) (map withSigil l) ->
        channels_get c (Some s) = Ok None).
Proof.
  intros E C Hin k room. subst k room.
  assert (Hl : l <> []) by (intros ->; contradiction).
  pose proof (fun s => channels_get_initial d env given tr c l s E C Hl) as G.
  apply constructor_ok in E as (_ & _ & (l' & C' & St & _) & _).
  rewrite C in C'. injection C' as <-.
  destruct (initialStore_spec l) as (_ & L & _).
  assert (M : map normalizeChannelName l = map withSigil l).
  { apply map_ext. apply normalize_withSigil. }
  assert (Hk : includes (map withSigil l) (withSigil n) = true).
  { apply includes_In, in_map, Hin. }
  assert (Get : forall s, withSigil s = withSigil n ->
                  channels_get c (Some s) = Ok (Some (newChannel (withSigil n)))).
  { intros s Hs. now rewrite G, M, normalize_withSigil, Hs, Hk. }
  split; [unfold Collection.get; now rewrite St, L, M, Hk|].
  split; [reflexivity|].
  split; [now apply Get|].
  split.
  { apply Get. rewrite <- !normalize_withSigil. apply normalize_idempotent. }
  split; [exact Get|].
  split.
  { intros b Hn Hb. apply Get. subst n. cbn [withSigil Ascii.eqb Bool.eqb].
    destruct b as [|a b]; [reflexivity|]. cbn [withSigil].
    destruct (Ascii.eqb a "#") eqn:Ea; [|reflexivity].
    apply Ascii.eqb_eq in Ea. subst a. now contradiction (Hb b). }
  split.
  - intros s. rewrite G, M, normalize_withSigil. unfold Collection.get.
    now rewrite St, L, M.
  - intros s Hs. rewrite G, M, normalize_withSigil.
    destruct (includes (map withSigil l) (withSigil s)) eqn:I; [|reflexivity].
    apply includes_In in I. contradiction.
Qed.

(** The theorem at an input: the list ['room'] and the name 'room'. *)
Lemma initial_channels_lookup_witness :
  channels_get exampleClient (Some "room") = Ok (Some (newChannel "#room"))
  /\ channels_get exampleClient (Some "#room") = Ok (Some (newChannel "#room")).
Proof.
  destruct (initial_channels_lookup sampleDefaultOptions exampleEnv exampleGiven
              exampleTrace exampleClient ["room"] "room")
    as (_ & _ & A & B & _).
  - reflexivity.
  - reflexivity.
  - now left.
  - split; [exact A|exact B].
Defined.

(** C6 as stated fails: the room named '##x' in the initial list is stored
    under '##x' and found under that name, but the name without its leading
    '#', which is '#x', finds nothing: the lookup adds a missing sigil and
    never takes one off. *)
Lemma double_sigil_not_found_without_sigil :
  constructor sampleDefaultOptions [] doubleSigilGiven
  = (exampleTrace, Ok doubleSigilClient)
  /\ Collection.get (channels doubleSigilClient) "##x" = Some (newChannel "##x")
  /\ channels_get doubleSigilClient (Some "##x") = Ok (Some (newChannel "##x"))
  /\ channels_get doubleSigilClient (Some "#x") = Ok None.
Proof. repeat split. Qed.

Lemma channels_set_all_installed joins : forall c,
  channels_get_installed (channels_set_all c joins) = channels_get_installed c.
Proof.
  unfold channels_set_all.
  induction joins as [|kv joins IH]; intros c; cbn; [reflexivity|].
  now rewrite IH.
Qed.

Lemma sigil_differs s : String.eqb ("#" ++ s) s = false.
Proof.
  apply String.eqb_neq. intros H. apply (f_equal String.length) in H.
  cbn in H. lia.
Qed.

(** C9.  A client constructed with an empty initial channel list keeps the
    collection's own keyed [get]: whatever is set in the store later, a
    lookup is the keyed one, so a room stored under the identifier with
    the sigil is found under that identifier and not under the bare name. *)
Theorem empty_list_keeps_keyed_get d env given tr c :
  constructor d env given = (tr, Ok c) ->
  getProp (mergeDefault d given) "channels" = JArr [] ->
  channels_get_installed c = false
  /\ channels c = Collection.empty
  /\ (forall joins s,
        channels_get (channels_set_all c joins) (Some s) =
        Ok (Collection.get (channels (channels_set_all c joins)) s))
  /\ (forall bare room,
        channels_get (channels_set c ("#" ++ bare) room) (Some ("#" ++ bare)%string)
        = Ok (Some room)
        /\ channels_get (channels_set c ("#" ++ bare) room) (Some bare) = Ok None).
Proof.
  intros E C. apply constructor_ok in E as (_ & _ & (l & C' & St & Inst) & _).
  rewrite C in C'. injection C' as <-. cbn in St, Inst.
  split; [assumption|]. split; [assumption|]. split.
  - intros joins s. unfold channels_get.
    now rewrite channels_set_all_installed, Inst.
  - intros bare room. unfold channels_get, channels_set, with_channels.
    cbn [channels_get_installed channels]. rewrite Inst, St.
    unfold Collection.get. cbn [Collection.set Collection.empty lookup].
    now rewrite String.eqb_refl, sigil_differs.
Qed.

(** The theorem at an input: the client constructed with no option. *)
Lemma empty_list_keeps_keyed_get_witness :
  channels_get (channels_set bareClient "#room" (newChannel "#room")) (Some "room")
  = Ok None.
Proof.
  destruct (empty_list_keeps_keyed_get sampleDefaultOptions [] []
              [LoggerCreated (JBool false); LogDebug "Debug is active!";
               AutoEndLogActivate; SleeptCreated] bareClient)
    as (_ & _ & _ & H).
  - reflexivity.
  - reflexivity.
  - exact (proj2 (H "room" (newChannel "#room"))).
Defined.

(** C8.  The token of a constructed client is the value of CLIENT_TOKEN
    when the environment has one, and null otherwise; the test also asks
    that no token be set already, and a token set already would be replaced
    by null. *)
Theorem token_from_environment d env given tr c :
  constructor d env given = (tr, Ok c) ->
  token c = match lookup env "CLIENT_TOKEN" with
            | Some v => JStr v
            | None => JNull
            end
  /\ (forall current v,
        truthy current = false -> lookup env "CLIENT_TOKEN" = Some v ->
        initToken current env = JStr v)
  /\ (forall current,
        truthy current = true \/ lookup env "CLIENT_TOKEN" = None ->
        initToken current env = JNull).
Proof.
  intros E. apply constructor_ok in E as (_ & _ & _ & T & _).
  split; [|split].
  - rewrite T. unfold initToken, hasOwn. cbn [truthy negb andb].
    destruct (lookup env "CLIENT_TOKEN"); reflexivity.
  - intros current v Hc Hv. unfold initToken, hasOwn. now rewrite Hc, Hv.
  - intros current [Hc|Hv]; unfold initToken, hasOwn.
    + now rewrite Hc.
    + rewrite Hv. now rewrite andb_false_r.
Qed.

(** The theorem at an input: the example client and its environment. *)
Lemma token_from_environment_witness : token exampleClient = JStr "oauth:abc".
Proof.
  exact (proj1 (token_from_environment sampleDefaultOptions exampleEnv exampleGiven
                  exampleTrace exampleClient eq_refl)).
Defined.

(** ** The sweep *)

Lemma sweep_spec {V} (fn : V -> bool) (c : Collection.t V) :
  Collection.sweep fn c =
  (Z.of_nat (List.length (filter fn (Collection.values c))),
   filter (fun kv => negb (fn (snd kv))) c).
Proof.
  unfold Collection.values.
  induction c as [|[k v] c IH]; cbn [Collection.sweep map filter snd]; [reflexivity|].
  rewrite IH. destruct (fn v); cbn [negb List.length]; [|reflexivity].
  f_equal. lia.
Qed.

Lemma values_filter_snd {V} (f : V -> bool) (c : Collection.t V) :
  Collection.values (filter (fun kv => f (snd kv)) c) = filter f (Collection.values c).
Proof.
  unfold Collection.values.
  induction c as [|[k v] c IH]; cbn; [reflexivity|].
  destruct (f v); cbn; now rewrite IH.
Qed.

Lemma filter_app_length {A} (f : A -> bool) l l' :
  List.length (filter f (l ++ l')) =
  (List.length (filter f l) + List.length (filter f l'))%nat.
Proof. now rewrite filter_app, length_app. Qed.

(** The loop sweeps every channel that has a cache, counts those channels
    and adds up what the caches report. *)
Lemma sweepLoop_spec now ms todo : forall nchannels nmessages,
  sweepLoop now ms todo nchannels nmessages =
  (nchannels
   + Z.of_nat (List.length
        (filter (fun channel => match messages channel with Some _ => true | None => false end)
                (Collection.values todo))),
   nmessages
   + Z.of_nat (List.length (filter (sweepPredicate now ms) (cachedMessages todo))),
   map (fun kv => (fst kv, sweptChannel now ms (snd kv))) todo).
Proof.
  unfold cachedMessages, Collection.values.
  induction todo as [|[k channel] todo IH]; intros nchannels nmessages;
    cbn [sweepLoop map flat_map filter fst snd].
  - now rewrite !Z.add_0_r.
  - unfold sweptChannel at 1. destruct (messages channel) as [cache|] eqn:M.
    + rewrite sweep_spec, IH, filter_app_length. cbn [List.length].
      unfold Collection.values.
      apply pair_equal_spec. split; [|reflexivity].
      apply pair_equal_spec. split; lia.
    + rewrite IH. cbn [app]. reflexivity.
Qed.

Lemma cachedMessages_swept now ms cs :
  cachedMessages (map (fun kv => (fst kv, sweptChannel now ms (snd kv))) cs) =
  filter (fun m => negb (sweepPredicate now ms m)) (cachedMessages cs).
Proof.
  unfold cachedMessages, Collection.values.
  induction cs as [|[k channel] cs IH]; cbn [map flat_map fst snd]; [reflexivity|].
  rewrite filter_app, IH. f_equal.
  unfold sweptChannel. destruct (messages channel) as [cache|] eqn:M.
  - cbn [messages with_messages].
    apply (values_filter_snd (fun m => negb (sweepPredicate now ms m))).
  - now rewrite M.
Qed.

Lemma filter_partition_length {A} (f : A -> bool) l :
  List.length l =
  (List.length (filter (fun x => negb (f x)) l) + List.length (filter f l))%nat.
Proof.
  induction l as [|x l IH]; cbn; [reflexivity|].
  destruct (f x); cbn; lia.
Qed.

(** What [sweepMessages] does for a positive lifetime. *)
Lemma sweepMessages_positive now L c :
  0 < L ->
  sweepMessages now (JNum L) c =
  ([LogSwept
      (Z.of_nat (List.length
         (filter (sweepPredicate now (L * 1000)) (cachedMessages (channels c)))))
      L
      (Z.of_nat (List.length
         (filter (fun channel => match messages channel with Some _ => true | None => false end)
                 (Collection.values (channels c)))))],
   Returned
     (Z.of_nat (List.length
        (filter (sweepPredicate now (L * 1000)) (cachedMessages (channels c)))))
     (with_channels c
        (map (fun kv => (fst kv, sweptChannel now (L * 1000) (snd kv))) (channels c)))).
Proof.
  intros HL. unfold sweepMessages.
  replace (L <=? 0) with false by (symmetry; apply Z.leb_gt; lia).
  rewrite sweepLoop_spec. reflexivity.
Qed.

(** C2 (the code at an input that shows the defect).  The comment above
    [sweepMessages] and the specification say that an edited message is
    judged by the time of its edit.  The predicate of the source reads
    [createdTimestamp] only: it gives the same answer whatever the edit
    timestamp is, and at 5000 ms with a lifetime of one second it removes
    the message created at 0 and edited at 4500, which the criterion of the
    specification keeps. *)
Theorem sweep_ignores_edit_timestamp :
  (forall now ms i t created e e',
      sweepPredicate now ms (mkMessage i t created e)
      = sweepPredicate now ms (mkMessage i t created e'))
  /\ effectiveTimestamp oldEdited = 4500
  /\ specPredicate 5000 (1 * 1000) oldEdited = false
  /\ sweepPredicate 5000 (1 * 1000) oldEdited = true
  /\ sweepMessages 5000 (JNum 1) editedClient
     = ([LogSwept 1 1 1],
        Returned 1
          (with_channels editedClient [("#room", roomWith [("m2", fresh)])])).
Proof.
  split; [reflexivity|]. repeat split.
Qed.

(** C3.  With a lifetime that is zero or negative, given as the argument or
    taken from the option [messageCacheLifetime], [sweepMessages] returns
    -1 and leaves the client, and so every cache, as it was; it only logs
    that nothing was swept. *)
Theorem sweep_unlimited now L lifetimeArg c :
  L <= 0 ->
  lifetimeArg = JNum L
  \/ (lifetimeArg = JUndefined
      /\ getProp (options c) "messageCacheLifetime" = JNum L) ->
  sweepMessages now lifetimeArg c
  = ([LogDebug "Didn't sweep messages - lifetime is unlimited"], Returned (-1) c).
Proof.
  intros HL [->|[-> H]]; unfold sweepMessages; [|rewrite H];
    now replace (L <=? 0) with true by (symmetry; apply Z.leb_le; lia).
Qed.

(** The theorem at an input: lifetime 0 on a client with cached messages,
    one of them five seconds old. *)
Lemma sweep_unlimited_witness :
  sweepMessages 5000 (JNum 0) editedClient
  = ([LogDebug "Didn't sweep messages - lifetime is unlimited"],
     Returned (-1) editedClient).
Proof.
  apply (sweep_unlimited 5000 0 (JNum 0) editedClient).
  - lia.
  - left. reflexivity.
Defined.

(** The sweep judges a message by its creation timestamp alone: the message
    of [backdatedClient], whose edit timestamp 0 is earlier than its
    creation timestamp 5000, stays in the cache after a sweep at 5000 ms
    with a lifetime of one second.  Nothing is removed and 0 is returned. *)
Lemma sweep_keeps_backdated_edit :
  sweepMessages 5000 (JNum 1) backdatedClient
  = ([LogSwept 0 1 1], Returned 0 backdatedClient)
  /\ In backdated (cachedMessages (channels backdatedClient))
  /\ 1 * 1000 < 5000 - effectiveTimestamp backdated.
Proof.
  split; [reflexivity|]. split; [now left|reflexivity].
Qed.

(** X12.  What a sweep does establish.  After [sweepMessages] with a lifetime
    [L > 0] no message left in any cache was created more than [L] seconds
    before [now]; the same holds of the effective timestamp of every
    message left whose edit timestamp is absent or not earlier than its
    creation.  The number returned is the number of messages removed over
    all channels: the messages left are those of before that the predicate
    spares. *)
Theorem sweep_invariant now L c :
  0 < L ->
  exists removed c' tr,
    sweepMessages now (JNum L) c = (tr, Returned removed c')
    /\ cachedMessages (channels c')
       = filter (fun m => negb (sweepPredicate now (L * 1000) m))
           (cachedMessages (channels c))
    /\ removed
       = Z.of_nat (List.length (cachedMessages (channels c)))
         - Z.of_nat (List.length (cachedMessages (channels c')))
    /\ (forall m, In m (cachedMessages (channels c')) ->
          now - createdTimestamp m <= L * 1000)
    /\ (forall m, In m (cachedMessages (channels c')) ->
          (forall e, editedTimestamp m = Some e -> createdTimestamp m <= e) ->
          now - effectiveTimestamp m <= L * 1000).
Proof.
  intros HL. do 3 eexists.
  split; [apply (sweepMessages_positive now L c HL)|].
  cbn [channels with_channels]. rewrite cachedMessages_swept.
  assert (Kept : forall m,
    In m (filter (fun m => negb (sweepPredicate now (L * 1000) m))
            (cachedMessages (channels c))) ->
    now - createdTimestamp m <= L * 1000).
  { intros m Hm. apply filter_In in Hm as [_ Hm].
    apply negb_true_iff in Hm. unfold sweepPredicate in Hm.
    apply Z.ltb_ge in Hm. exact Hm. }
  split; [reflexivity|]. split; [|split].
  - pose proof (filter_partition_length (sweepPredicate now (L * 1000))
                  (cachedMessages (channels c))) as P.
    lia.
  - exact Kept.
  - intros m Hm Hwf. apply Kept in Hm. unfold effectiveTimestamp.
    destruct (editedTimestamp m) as [e|] eqn:Ed; [|exact Hm].
    specialize (Hwf e eq_refl). lia.
Qed.

(** The same at an input: one second of lifetime at 5000 ms on the client
    that caches a five-second-old message and a fresh one. *)
Lemma sweep_invariant_example :
  exists removed c' tr,
    sweepMessages 5000 (JNum 1) editedClient = (tr, Returned removed c')
    /\ cachedMessages (channels c')
       = filter (fun m => negb (sweepPredicate 5000 (1 * 1000) m))
           (cachedMessages (channels editedClient))
    /\ removed
       = Z.of_nat (List.length (cachedMessages (channels editedClient)))
         - Z.of_nat (List.length (cachedMessages (channels c')))
    /\ (forall m, In m (cachedMessages (channels c')) ->
          5000 - createdTimestamp m <= 1 * 1000)
    /\ (forall m, In m (cachedMessages (channels c')) ->
          (forall e, editedTimestamp m = Some e -> createdTimestamp m <= e) ->
          5000 - effectiveTimestamp m <= 1 * 1000).
Proof.
  apply (sweep_invariant 5000 1 editedClient). lia.
Defined.

(** C4.  For every lifetime [L > 0], on caches whose messages were edited,
    if at all, no earlier than they were created, [sweepMessages(L)]
    returns, and afterwards no message left in any channel's cache has
    [now - effectiveTimestamp > L] seconds; the value returned is the
    number of messages removed over all channels in this pass. *)
Theorem sweep_leaves_no_stale_message now L c :
  0 < L ->
  editsFollowCreation (channels c) ->
  exists removed c' tr,
    sweepMessages now (JNum L) c = (tr, Returned removed c')
    /\ (forall m, In m (cachedMessages (channels c')) ->
          ~ (now - effectiveTimestamp m > L * 1000))
    /\ removed
       = Z.of_nat (List.length (cachedMessages (channels c)))
         - Z.of_nat (List.length (cachedMessages (channels c'))).
Proof.
  intros HL Hwf. do 3 eexists.
  split; [apply (sweepMessages_positive now L c HL)|].
  cbn [channels with_channels]. rewrite cachedMessages_swept. split.
  - intros m Hm. apply filter_In in Hm as [Hin Hm].
    apply negb_true_iff in Hm. unfold sweepPredicate in Hm.
    apply Z.ltb_ge in Hm. unfold effectiveTimestamp.
    destruct (editedTimestamp m) as [e|] eqn:Ed; [|lia].
    specialize (Hwf m Hin e Ed). lia.
  - pose proof (filter_partition_length (sweepPredicate now (L * 1000))
                  (cachedMessages (channels c))) as P.
    lia.
Qed.

(** The theorem at an input: one second of lifetime at 5000 ms on the
    client that caches a message created five seconds and edited half a
    second ago, and a fresh one. *)
Lemma sweep_leaves_no_stale_message_witness :
  exists removed c' tr,
    sweepMessages 5000 (JNum 1) editedClient = (tr, Returned removed c')
    /\ (forall m, In m (cachedMessages (channels c')) ->
          ~ (5000 - effectiveTimestamp m > 1 * 1000))
    /\ removed
       = Z.of_nat (List.length (cachedMessages (channels editedClient)))
         - Z.of_nat (List.length (cachedMessages (channels c'))).
Proof.
  apply (sweep_leaves_no_stale_message 5000 1 editedClient).
  - lia.
  - intros m [<-|[<-|[]]] e; cbn; intros [= <-]; lia.
Defined.

(** ** The 'message' event *)

(** A chat frame whose room the lookup does not find makes [eventEmmiter]
    throw on [.users], and nothing is emitted. *)
Lemma message_unknown_room c f t others :
  nth_error (params f) 1 = Some t ->
  channels_get c (nth_error (params f) 0) = Ok None ->
  eventEmmiter c "message" (AFrame f :: others)
  = ([], Throw (TypeError "Cannot read properties of undefined (reading 'users')")).
Proof.
  intros Ht Hroom. unfold eventEmmiter.
  change (String.eqb "message" "message") with true.
  change (nth_error (AFrame f :: others) 0) with (Some (AFrame f)).
  cbv iota. rewrite Ht, Hroom. reflexivity.
Qed.

(** C1 (the code at an input that shows the defect).  [strayFrame] is a
    chat frame for '#elsewhere'.  Neither the client that has the room
    '#room' and the normalizing lookup, nor the client constructed without
    rooms, has that room: the lookup gives undefined, and [eventEmmiter]
    throws a TypeError while it builds [author]; it emits and logs
    nothing. *)
Theorem message_for_unjoined_room_throws :
  channels_get editedClient (Some "#elsewhere") = Ok None
  /\ eventEmmiter editedClient "message" [AFrame strayFrame]
     = ([], Throw (TypeError "Cannot read properties of undefined (reading 'users')"))
  /\ channels_get bareClient (Some "#elsewhere") = Ok None
  /\ eventEmmiter bareClient "message" [AFrame strayFrame]
     = ([], Throw (TypeError "Cannot read properties of undefined (reading 'users')")).
Proof. repeat split. Qed.

(** C7 (as the code has it).  For a chat frame whose first parameter names
    a room that the lookup finds, whose second parameter is the text [t]
    and whose prefix is the login [a], a '!' and the rest, [eventEmmiter]
    emits one 'message' event; its payload has [t] as content and as
    [toString()], the room as channel and the id tag of the frame as id.
    Its author is what the room's user collection holds under the key [a]:
    undefined when the room holds nothing there, and, when the room keeps
    its users under their identifiers, the user whose identifier is [a]. *)
Theorem message_event_payload c f room t more a rest r others :
  params f = room :: t :: more ->
  prefix f = (a ++ String "!" rest)%string ->
  indexOf "!" a = -1 ->
  channels_get c (Some room) = Ok (Some r) ->
  exists m,
    eventEmmiter c "message" (AFrame f :: others) = ([EmitMessage m], Ok tt)
    /\ content m = t
    /\ toString m = t
    /\ channel m = Some r
    /\ id m = lookup (tags f) "id"
    /\ author m = Collection.get (users r) a
    /\ (~ In a (keys (users r)) -> author m = None)
    /\ (usersById r -> In a (keys (users r)) ->
        exists u, author m = Some u /\ user_id u = a /\ In (a, u) (users r)).
Proof.
  intros Hp Hpre Ha Hroom. unfold eventEmmiter.
  change (String.eqb "message" "message") with true.
  change (nth_error (AFrame f :: others) 0) with (Some (AFrame f)).
  cbv iota. rewrite Hp. cbn [nth_error].
  rewrite Hroom, Hpre, (slice_login a rest Ha).
  eexists. split; [reflexivity|]. cbn [content toString channel id author].
  repeat split.
  - intros Hn. unfold Collection.get. now apply lookup_None_keys.
  - intros Hby Hin. unfold Collection.get.
    destruct (lookup (users r) a) as [u|] eqn:Lu.
    + exists u. pose proof (lookup_In _ _ _ Lu) as Hu.
      split; [reflexivity|]. split; [now apply (Hby a u)|exact Hu].
    + apply lookup_None_keys in Lu. contradiction.
Qed.

(** The theorem at an input: alice says hello in '#room'. *)
Lemma message_event_payload_witness :
  exists m,
    eventEmmiter editedClient "message" [AFrame helloFrame] = ([EmitMessage m], Ok tt)
    /\ content m = "hello"
    /\ toString m = "hello"
    /\ channel m = Some (roomWith [("m1", oldEdited); ("m2", fresh)])
    /\ id m = Some "abc-1"
    /\ author m = Some (mkUser "alice").
Proof.
  destruct (message_event_payload editedClient helloFrame "#room" "hello" []
              "alice" "alice@alice.tmi.twitch.tv"
              (roomWith [("m1", oldEdited); ("m2", fresh)]) []
              eq_refl eq_refl eq_refl eq_refl)
    as (m & E & C & T & Ch & I & A & _).
  exists m. repeat split; assumption.
Defined.

(** C7 as stated fails: on the client as constructed with the room '#room',
    which holds no user yet, the frame of alice is re-emitted with an
    undefined author: the lookup on the room's users creates nothing. *)
Lemma message_author_undefined_in_fresh_room :
  constructor sampleDefaultOptions exampleEnv exampleGiven
  = (exampleTrace, Ok exampleClient)
  /\ channels_get exampleClient (Some "#room") = Ok (Some (newChannel "#room"))
  /\ eventEmmiter exampleClient "message" [AFrame helloFrame]
     = ([EmitMessage
           {| content := "hello";
              reply_id := Some "abc-1";
              reply_channel := Some "#room";
              id := Some "abc-1";
              channel := Some (newChannel "#room");
              author := None |}],
        Ok tt).
Proof. repeat split. Qed.

(** ** More on the constructor *)

Lemma constructor_succeeds d env given l :
  recognizedValid (mergeDefault d given) = true ->
  firstUnknown d given = None ->
  getProp (mergeDefault d given) "channels" = JArr l ->
  constructor d env given
  = (constructorTrace (mergeDefault d given),
     Ok (constructedClient (mergeDefault d given) env l)).
Proof.
  intros V U C. unfold constructor, constructorTrace, constructedClient.
  rewrite (validate_recognized d _ V), firstUnknown_merge, U, bind_ok_nil.
  set (o := mergeDefault d given) in *. rewrite C. unfold initChannels, initialStore.
  destruct (truthy (getProp o "debug") && truthy (getProp o "autoLogEnd"));
  destruct (truthy (getProp o "autoLogEnd") && negb (truthy (getProp o "debug")));
  destruct (getProp o "messageSweepInterval") as [| |?|n| |?|?|?];
  cbn [gt0]; try destruct (0 <? n);
  reflexivity.
Qed.

Lemma constructor_ok_explicit d env given tr c :
  constructor d env given = (tr, Ok c) ->
  recognizedValid (mergeDefault d given) = true
  /\ firstUnknown d given = None
  /\ exists l, getProp (mergeDefault d given) "channels" = JArr l
               /\ tr = constructorTrace (mergeDefault d given)
               /\ c = constructedClient (mergeDefault d given) env l.
Proof.
  intros E. pose proof (constructor_ok _ _ _ _ _ E) as (V & U & (l & C & _) & _).
  split; [assumption|]. split; [assumption|]. exists l. split; [assumption|].
  rewrite (constructor_succeeds d env given l V U C) in E.
  injection E as <- <-. split; reflexivity.
Qed.

(** X1.  For options whose arrays hold strings, as every array of the
    model does, a construction returns a client exactly when the ten tests
    on the recognized options pass, no key of the given object is outside
    the default set, and [channels] is an array (of room names).  An array
    with an element that is not a string is outside this statement: the
    source calls [slice] on it and throws if it has none. *)
Theorem constructor_succeeds_iff d env given :
  (exists tr c, constructor d env given = (tr, Ok c))
  <-> (recognizedValid (mergeDefault d given) = true
       /\ firstUnknown d given = None
       /\ exists l, getProp (mergeDefault d given) "channels" = JArr l).
Proof.
  split.
  - intros (tr & c & E).
    apply constructor_ok_explicit in E as (V & U & l & C & _). eauto.
  - intros (V & U & l & C). do 2 eexists.
    apply (constructor_succeeds d env given l V U C).
Qed.

(** X2.  When one of the ten tests on the recognized options fires, the
    constructor throws before it has done anything: no logger is created,
    autoEndLog is not activated, no timer is set, no session manager is
    created. *)
Theorem invalid_recognized_option_no_effect d env given :
  recognizedValid (mergeDefault d given) = false ->
  exists msg, constructor d env given = ([], Throw (TypeError msg)).
Proof.
  intros V. unfold constructor.
  destruct (validate_unrecognized d _ V) as [msg ->]. exists msg. reflexivity.
Qed.

(** The theorem at an input: [debug] given as the string 'yes'. *)
Lemma invalid_recognized_option_no_effect_witness :
  exists msg,
    constructor sampleDefaultOptions exampleEnv [("debug", JStr "yes")]
    = ([], Throw (TypeError msg)).
Proof.
  apply (invalid_recognized_option_no_effect sampleDefaultOptions exampleEnv
           [("debug", JStr "yes")]).
  reflexivity.
Defined.

(** X3.  A constructed client has a numeric [messageSweepInterval] [n].
    The sweep timer is set when [n > 0], with the period [n * 1000] ms, and
    it is the only timer; with [n <= 0] no timer is set. *)
Theorem sweep_timer_registered d env given tr c :
  constructor d env given = (tr, Ok c) ->
  exists n,
    getProp (options c) "messageSweepInterval" = JNum n
    /\ (0 < n -> In (SetInterval (n * 1000)) tr)
    /\ (n <= 0 -> forall ms, ~ In (SetInterval ms) tr)
    /\ (forall ms, In (SetInterval ms) tr -> ms = n * 1000).
Proof.
  intros E. apply constructor_ok_explicit in E as (V & _ & l & _ & -> & ->).
  cbn [options constructedClient]. set (o := mergeDefault d given) in *.
  unfold recognizedValid in V. repeat (apply andb_true_iff in V as [V ?]).
  unfold constructorTrace.
  destruct (getProp o "messageSweepInterval") as [| |?|n| |?|?|?]; try discriminate.
  exists n. split; [reflexivity|].
  destruct (truthy (getProp o "debug") && truthy (getProp o "autoLogEnd"));
  destruct (truthy (getProp o "autoLogEnd") && negb (truthy (getProp o "debug")));
  destruct (0 <? n) eqn:Hn;
  try apply Z.ltb_lt in Hn; try apply Z.ltb_ge in Hn; cbn;
  (split; [intros; try lia; tauto|]);
  (split; [intros ? ms Hin; intuition (try discriminate; try lia)|]);
  intros ms Hin; intuition (try discriminate; try congruence).
Qed.

(** The theorem at an input: a sweep every 30 seconds. *)
Lemma sweep_timer_registered_witness :
  exists n,
    getProp (mergeDefault sampleDefaultOptions [("messageSweepInterval", JNum 30)])
      "messageSweepInterval" = JNum n
    /\ (0 < n ->
        In (SetInterval (n * 1000))
          (constructorTrace
             (mergeDefault sampleDefaultOptions [("messageSweepInterval", JNum 30)])))
    /\ (n <= 0 -> forall ms,
        ~ In (SetInterval ms)
            (constructorTrace
               (mergeDefault sampleDefaultOptions [("messageSweepInterval", JNum 30)])))
    /\ (forall ms,
        In (SetInterval ms)
          (constructorTrace
             (mergeDefault sampleDefaultOptions [("messageSweepInterval", JNum 30)])) ->
        ms = n * 1000).
Proof.
  exact (sweep_timer_registered sampleDefaultOptions []
           [("messageSweepInterval", JNum 30)] _ _ eq_refl).
Defined.

Lemma valid_flag_true o k :
  recognizedValid o = true ->
  k = "debug" \/ k = "autoLogEnd" ->
  truthy (getProp o k) = true -> getProp o k = JBool true.
Proof.
  intros V Hk T. unfold recognizedValid in V.
  repeat (apply andb_true_iff in V as [V ?]).
  destruct Hk as [-> | ->]; rewrite T in *.
  - destruct (getProp o "debug") as [| |[]|?| |?|?|?];
      try discriminate; reflexivity.
  - destruct (getProp o "autoLogEnd") as [| |[]|?| |?|?|?];
      try discriminate; reflexivity.
Qed.

Lemma trace_activate o :
  In AutoEndLogActivate (constructorTrace o)
  <-> truthy (getProp o "autoLogEnd") && negb (truthy (getProp o "debug")) = true.
Proof.
  unfold constructorTrace.
  destruct (truthy (getProp o "debug") && truthy (getProp o "autoLogEnd"));
  destruct (truthy (getProp o "autoLogEnd") && negb (truthy (getProp o "debug")));
  destruct (getProp o "messageSweepInterval") as [| |?|n| |?|?|?];
  try destruct (0 <? n); cbn; intuition discriminate.
Qed.

Lemma trace_warn o w :
  In (LogWarn w) (constructorTrace o)
  <-> w = "AutoLogEnd disabled because debug is enabled"
      /\ truthy (getProp o "debug") && truthy (getProp o "autoLogEnd") = true.
Proof.
  unfold constructorTrace.
  destruct (truthy (getProp o "debug") && truthy (getProp o "autoLogEnd"));
  destruct (truthy (getProp o "autoLogEnd") && negb (truthy (getProp o "debug")));
  destruct (getProp o "messageSweepInterval") as [| |?|n| |?|?|?];
  try destruct (0 <? n); cbn; intuition (try discriminate; try congruence).
Qed.

(** X4.  In a construction that returns, autoEndLog is activated exactly
    when [autoLogEnd] is true and [debug] is falsy; the warning that
    autoLogEnd is disabled is logged exactly when both are true; never both
    happen. *)
Theorem autoEndLog_unless_debug d env given tr c :
  constructor d env given = (tr, Ok c) ->
  (In AutoEndLogActivate tr
   <-> autoLogEnd c = JBool true /\ truthy (getProp (options c) "debug") = false)
  /\ (In (LogWarn "AutoLogEnd disabled because debug is enabled") tr
      <-> autoLogEnd c = JBool true /\ getProp (options c) "debug" = JBool true)
  /\ ~ (In AutoEndLogActivate tr
        /\ In (LogWarn "AutoLogEnd disabled because debug is enabled") tr).
Proof.
  intros E. apply constructor_ok_explicit in E as (V & _ & l & _ & -> & ->).
  cbn [options autoLogEnd constructedClient]. set (o := mergeDefault d given) in *.
  pose proof (valid_flag_true o "debug" V (or_introl eq_refl)) as Hd.
  pose proof (valid_flag_true o "autoLogEnd" V (or_intror eq_refl)) as Ha.
  rewrite trace_activate, trace_warn.
  split; [|split].
  - split.
    + intros H. apply andb_true_iff in H as [H1 H2]. apply negb_true_iff in H2.
      split; [apply Ha; exact H1|exact H2].
    + intros [A B]. rewrite A, B. reflexivity.
  - split.
    + intros [_ H]. apply andb_true_iff in H as [H1 H2].
      split; [apply Ha|apply Hd]; assumption.
    + intros [A B]. split; [reflexivity|]. rewrite A, B. reflexivity.
  - intros [H1 [_ H2]].
    apply andb_true_iff in H1 as [_ H1]. apply andb_true_iff in H2 as [H2 _].
    rewrite H2 in H1. discriminate H1.
Qed.

(** The theorem at an input: the example client, [autoLogEnd] true and
    [debug] false. *)
Lemma autoEndLog_unless_debug_witness :
  In AutoEndLogActivate exampleTrace
  <-> autoLogEnd exampleClient = JBool true
      /\ truthy (getProp (options exampleClient) "debug") = false.
Proof.
  exact (proj1 (autoEndLog_unless_debug sampleDefaultOptions exampleEnv exampleGiven
                  exampleTrace exampleClient eq_refl)).
Defined.

(** ** More on the channel store *)

Lemma set_keys {V} (c : Collection.t V) k v :
  keys (Collection.set c k v) = if includes (keys c) k then keys c else keys c ++ [k].
Proof.
  unfold keys, includes.
  induction c as [|[k0 v0] c IH]; cbn [Collection.set map fst existsb app].
  - reflexivity.
  - rewrite (String.eqb_sym k k0).
    destruct (String.eqb k0 k) eqn:E; cbn [orb map fst]; [reflexivity|].
    rewrite IH. destruct (existsb (String.eqb k) (map fst c)); reflexivity.
Qed.

Lemma initChannels_keys l : forall st b,
  keys (fst (fold_left initChannel l (st, b)))
  = keys st ++ firstOccurrences (keys st) (map normalizeChannelName l).
Proof.
  induction l as [|n l IH]; intros st b; cbn [fold_left map firstOccurrences].
  - now rewrite app_nil_r.
  - unfold initChannel at 2. cbn [fst]. rewrite IH, set_keys.
    destruct (includes (keys st) (normalizeChannelName n)); [reflexivity|].
    now rewrite <- app_assoc.
Qed.

Lemma firstOccurrences_In l : forall seen x,
  In x (firstOccurrences seen l) <-> In x l /\ ~ In x seen.
Proof.
  induction l as [|k l IH]; intros seen x; cbn [firstOccurrences In]; [tauto|].
  destruct (includes seen k) eqn:I.
  - apply includes_In in I. rewrite IH. split; [tauto|].
    intros [[->|H] N]; [contradiction|tauto].
  - assert (N : ~ In k seen) by (rewrite <- includes_In, I; discriminate).
    cbn [In]. rewrite IH, in_app_iff. cbn [In]. split.
    + intros [->|[H H']]; [tauto|tauto].
    + intros [[->|H] H']; [now left|].
      destruct (string_dec k x) as [->|D]; [now left|right; tauto].
Qed.

Lemma firstOccurrences_NoDup l : forall seen,
  NoDup seen -> NoDup (seen ++ firstOccurrences seen l).
Proof.
  induction l as [|k l IH]; intros seen H; cbn [firstOccurrences].
  - now rewrite app_nil_r.
  - destruct (includes seen k) eqn:I; [now apply IH|].
    assert (N : ~ In k seen) by (rewrite <- includes_In, I; discriminate).
    change (seen ++ k :: firstOccurrences (seen ++ [k]) l)
      with (seen ++ [k] ++ firstOccurrences (seen ++ [k]) l).
    rewrite app_assoc. apply IH.
    apply NoDup_app; [assumption|repeat constructor; intros []|].
    intros x Hx [<-|[]]. contradiction.
Qed.

Lemma firstOccurrences_length l : forall seen,
  (List.length (firstOccurrences seen l) <= List.length l)%nat.
Proof.
  induction l as [|k l IH]; intros seen; cbn [firstOccurrences List.length]; [lia|].
  destruct (includes seen k); cbn [List.length].
  - specialize (IH seen). lia.
  - specialize (IH (seen ++ [k])). lia.
Qed.

(** X5.  The store of a constructed client holds one room for each distinct
    normalized name of the initial list, in the order of first appearance:
    its keys have no duplicate, are exactly the normalized names, and each
    room is the fresh one created for its key (named by the key, no user,
    an empty cache); there are at most as many rooms as names given. *)
Theorem initial_store_invariant d env given tr c l :
  constructor d env given = (tr, Ok c) ->
  getProp (mergeDefault d given) "channels" = JArr l ->
  keys (channels c) = firstOccurrences [] (map normalizeChannelName l)
  /\ NoDup (keys (channels c))
  /\ (forall k, In k (keys (channels c)) <-> In k (map normalizeChannelName l))
  /\ (forall k room, In (k, room) (channels c) -> room = newChannel k)
  /\ (List.length (channels c) <= List.length l)%nat.
Proof.
  intros E C. apply constructor_ok in E as (_ & _ & (l' & C' & St & _) & _).
  rewrite C in C'. injection C' as <-.
  assert (K : keys (channels c) = firstOccurrences [] (map normalizeChannelName l)).
  { rewrite St. unfold initialStore. now rewrite initChannels_keys. }
  split; [exact K|]. split; [|split; [|split]].
  - rewrite K. apply (firstOccurrences_NoDup _ []). constructor.
  - intros k. rewrite K, firstOccurrences_In. cbn. tauto.
  - rewrite St. apply (initialStore_spec l).
  - replace (List.length (channels c)) with (List.length (keys (channels c)))
      by apply length_map.
    rewrite K. etransitivity; [apply firstOccurrences_length|].
    now rewrite length_map.
Qed.

(** The theorem at an input: the list ['room', '#room', 'other', 'room']
    gives the two rooms '#room' and '#other'. *)
Lemma initial_store_invariant_witness :
  keys (channels (constructedClient
                    (mergeDefault sampleDefaultOptions
                       [("channels", JArr ["room"; "#room"; "other"; "room"])])
                    [] ["room"; "#room"; "other"; "room"]))
  = ["#room"; "#other"].
Proof.
  exact (proj1 (initial_store_invariant sampleDefaultOptions []
                  [("channels", JArr ["room"; "#room"; "other"; "room"])]
                  _ _ ["room"; "#room"; "other"; "room"] eq_refl eq_refl)).
Defined.

Lemma initChannels_by_normalized l : forall st b,
  fst (fold_left initChannel l (st, b))
  = fold_left (fun st k => Collection.set st k (newChannel k))
      (map normalizeChannelName l) st.
Proof.
  induction l as [|n l IH]; intros st b; cbn [fold_left map]; [reflexivity|].
  unfold initChannel at 2. cbn [fst]. apply IH.
Qed.

(** X6.  Two constructions whose initial lists agree name by name after
    normalization (the same rooms written with or without the sigil) build
    the same store and the same lookup. *)
Theorem initial_store_sigil_insensitive d env given given' tr tr' c c' l l' :
  constructor d env given = (tr, Ok c) ->
  constructor d env given' = (tr', Ok c') ->
  getProp (mergeDefault d given) "channels" = JArr l ->
  getProp (mergeDefault d given') "channels" = JArr l' ->
  map normalizeChannelName l = map normalizeChannelName l' ->
  channels c = channels c'
  /\ channels_get_installed c = channels_get_installed c'
  /\ forall s, channels_get c s = channels_get c' s.
Proof.
  intros E E' C C' Hmap.
  apply constructor_ok in E as (_ & _ & (l0 & C0 & St & Inst) & _).
  apply constructor_ok in E' as (_ & _ & (l0' & C0' & St' & Inst') & _).
  rewrite C in C0. injection C0 as <-. rewrite C' in C0'. injection C0' as <-.
  assert (S : channels c = channels c').
  { rewrite St, St'. unfold initialStore.
    now rewrite !initChannels_by_normalized, Hmap. }
  assert (I : channels_get_installed c = channels_get_installed c').
  { rewrite Inst, Inst'.
    rewrite (proj2 (proj2 (initialStore_spec l))),
            (proj2 (proj2 (initialStore_spec l'))).
    destruct l, l'; try reflexivity; discriminate Hmap. }
  split; [exact S|]. split; [exact I|].
  intros s. unfold channels_get. now rewrite S, I.
Qed.

(** The theorem at an input: ['room'] and ['#room']. *)
Lemma initial_store_sigil_insensitive_witness :
  channels exampleClient
  = channels (constructedClient
                (mergeDefault sampleDefaultOptions [("channels", JArr ["#room"])])
                exampleEnv ["#room"]).
Proof.
  exact (proj1 (initial_store_sigil_insensitive sampleDefaultOptions exampleEnv
                  exampleGiven [("channels", JArr ["#room"])]
                  exampleTrace _ exampleClient _ ["room"] ["#room"]
                  eq_refl eq_refl eq_refl eq_refl eq_refl)).
Defined.

(** X7.  The prefix enforcement of the constructor and of its lookup: the
    result always starts with '#', applying it twice changes nothing more,
    a name that starts with '#' is left as it is, any other name (the empty
    one too) gets one '#' in front, and two names without the sigil that
    normalize to the same identifier are the same name. *)
Theorem normalizeChannelName_spec s s' :
  slice (normalizeChannelName s) 0 1 = "#"
  /\ normalizeChannelName (normalizeChannelName s) = normalizeChannelName s
  /\ (slice s 0 1 = "#" <-> normalizeChannelName s = s)
  /\ (slice s 0 1 <> "#" <-> normalizeChannelName s = ("#" ++ s)%string)
  /\ normalizeChannelName "" = "#"
  /\ (slice s 0 1 <> "#" -> slice s' 0 1 <> "#" ->
      normalizeChannelName s = normalizeChannelName s' -> s = s').
Proof.
  split; [apply normalize_sigil|]. split; [apply normalize_idempotent|].
  split; [|split; [|split; [reflexivity|]]].
  - split; [apply normalize_with_sigil|].
    intros H. rewrite <- H at 1. apply normalize_sigil.
  - split; [apply normalize_bare|].
    intros H E. rewrite (normalize_with_sigil s E) in H.
    apply (f_equal String.length) in H. cbn in H. lia.
  - intros B B' H. rewrite (normalize_bare s B), (normalize_bare s' B') in H.
    now injection H.
Qed.

(** X8.  The normalizing lookup is installed exactly when the initial list
    has a name.  Then a lookup with undefined throws a TypeError (it calls
    [slice] on it); with an empty initial list the collection's own [get]
    is in place and a lookup with undefined returns undefined. *)
Theorem lookup_installed_iff_nonempty d env given tr c l :
  constructor d env given = (tr, Ok c) ->
  getProp (mergeDefault d given) "channels" = JArr l ->
  (channels_get_installed c = true <-> l <> [])
  /\ (l <> [] -> exists msg, channels_get c None = Throw (TypeError msg))
  /\ (l = [] -> channels_get c None = Ok None).
Proof.
  intros E C. apply constructor_ok in E as (_ & _ & (l' & C' & _ & Inst) & _).
  rewrite C in C'. injection C' as <-.
  rewrite (proj2 (proj2 (initialStore_spec l))) in Inst.
  unfold channels_get. rewrite Inst.
  destruct l; (split; [|split]).
  - split; [discriminate|intros H; now contradiction H].
  - intros H. now contradiction H.
  - reflexivity.
  - split; [discriminate|reflexivity].
  - intros _. eexists. reflexivity.
  - discriminate.
Qed.

(** The theorem at an input: the example client, constructed with one room. *)
Lemma lookup_installed_iff_nonempty_witness :
  exists msg, channels_get exampleClient None = Throw (TypeError msg).
Proof.
  destruct (lookup_installed_iff_nonempty sampleDefaultOptions exampleEnv
              exampleGiven exampleTrace exampleClient ["room"] eq_refl eq_refl)
    as (_ & H & _).
  apply H. discriminate.
Defined.

(** ** More on the events *)

Lemma channels_get_throws c x e :
  channels_get c x = Throw e -> exists msg, e = TypeError msg.
Proof.
  unfold channels_get.
  destruct (channels_get_installed c); destruct x; intros [= <-]; eauto.
Qed.

Lemma emit_returns c event call payload :
  event <> "error" \/ hasErrorListener c = true ->
  emit c event call payload = ([call], Ok tt).
Proof.
  intros H. unfold emit.
  replace (String.eqb event "error" && negb (hasErrorListener c)) with false;
    [reflexivity|].
  destruct H as [H|H].
  - apply String.eqb_neq in H. now rewrite H.
  - rewrite H. now rewrite andb_false_r.
Qed.

(** X9.  The outcomes of [eventEmmiter].  It emits one event and returns;
    or it throws a TypeError with nothing emitted, which happens only for
    'message'; or, for the event 'error' on a client without a listener of
    'error', the [emit] it calls throws Node's unhandled-error Error.  A
    'ready' event carries the first two arguments (undefined where absent)
    and drops the others; any other event that is not 'message' is
    re-emitted under its own name with the whole argument list as one
    array, and returns unless it is the unhandled 'error'. *)
Theorem eventEmmiter_outcomes c event args :
  ((exists e, eventEmmiter c event args = ([e], Ok tt))
   \/ (event = "message"
       /\ exists msg, eventEmmiter c event args = ([], Throw (TypeError msg)))
   \/ (event = "error" /\ hasErrorListener c = false
       /\ eventEmmiter c event args
          = ([EmitOther event args], Throw (UnhandledError args))))
  /\ (event = "ready" ->
      eventEmmiter c event args
      = ([EmitReady (nth_error args 0) (nth_error args 1)], Ok tt))
  /\ (event <> "message" -> event <> "ready" ->
      event <> "error" \/ hasErrorListener c = true ->
      eventEmmiter c event args = ([EmitOther event args], Ok tt))
  /\ (event = "error" -> hasErrorListener c = false ->
      eventEmmiter c event args
      = ([EmitOther event args], Throw (UnhandledError args))).
Proof.
  assert (Unhandled : event = "error" -> hasErrorListener c = false ->
            eventEmmiter c event args
            = ([EmitOther event args], Throw (UnhandledError args))).
  { intros -> H. unfold eventEmmiter, emit. cbn [String.eqb Ascii.eqb Bool.eqb andb].
    rewrite H. reflexivity. }
  assert (Other : event <> "message" -> event <> "ready" ->
            event <> "error" \/ hasErrorListener c = true ->
            eventEmmiter c event args = ([EmitOther event args], Ok tt)).
  { intros Hm Hr H. unfold eventEmmiter.
    apply String.eqb_neq in Hm, Hr. rewrite Hm, Hr. now apply emit_returns. }
  split; [|split; [|split]]; [| |exact Other|exact Unhandled].
  - destruct (String.eqb event "message") eqn:Em.
    + apply String.eqb_eq in Em. subst event. unfold eventEmmiter.
      change (String.eqb "message" "message") with true. cbv iota.
      destruct (nth_error args 0) as [[f|v]|];
        try (right; left; split; [reflexivity|eexists; reflexivity]).
      destruct (nth_error (params f) 1);
        [|right; left; split; [reflexivity|eexists; reflexivity]].
      destruct (channels_get c (nth_error (params f) 0)) as [[r|]|e] eqn:R.
      * left. eexists. reflexivity.
      * right. left. split; [reflexivity|eexists; reflexivity].
      * destruct (channels_get_throws _ _ _ R) as [msg ->].
        right. left. split; [reflexivity|eexists; reflexivity].
    + apply String.eqb_neq in Em.
      destruct (String.eqb event "ready") eqn:Er.
      * apply String.eqb_eq in Er. subst event. left. eexists. reflexivity.
      * apply String.eqb_neq in Er.
        destruct (String.eqb event "error") eqn:Ee.
        -- apply String.eqb_eq in Ee.
           destruct (hasErrorListener c) eqn:L.
           ++ left. eexists. apply Other; auto.
           ++ right. right. split; [exact Ee|]. split; [reflexivity|].
              now apply Unhandled.
        -- apply String.eqb_neq in Ee. left. eexists. apply Other; auto.
  - intros ->. reflexivity.
Qed.

(** X10.  A 'message' event is emitted exactly when the first argument is
    a frame with a second parameter and the lookup of its first parameter
    finds a room; the payload then has that room as channel, so no
    'message' event ever carries an undefined channel. *)
Theorem message_emitted_iff c args :
  ((exists m, eventEmmiter c "message" args = ([EmitMessage m], Ok tt))
   <-> (exists f rest t r,
          args = AFrame f :: rest
          /\ nth_error (params f) 1 = Some t
          /\ channels_get c (nth_error (params f) 0) = Ok (Some r)))
  /\ (forall m, eventEmmiter c "message" args = ([EmitMessage m], Ok tt) ->
      exists r, channel m = Some r).
Proof.
  destruct args as [|[f|v] rest]; unfold eventEmmiter, throw;
    change (String.eqb "message" "message") with true; cbv iota.
  - change (nth_error (@nil Arg) 0) with (@None Arg). cbv iota.
    split; [split; [intros [m H]; discriminate H
                   |intros (f & r & t & x & H & _); discriminate H]
           |intros m H; discriminate H].
  - change (nth_error (AFrame f :: rest) 0) with (Some (AFrame f)). cbv iota.
    destruct (nth_error (params f) 1) as [t|] eqn:T.
    2:{ split; [split; [intros [m H]; discriminate H|]|intros m H; discriminate H].
        intros (f' & r & t & x & H & T' & _). injection H as <- <-. congruence. }
    destruct (channels_get c (nth_error (params f) 0)) as [[r|]|e] eqn:R.
    + split.
      * split; [intros _; exists f, rest, t, r; auto|].
        intros _. eexists. reflexivity.
      * intros m H. injection H as <-. exists r. reflexivity.
    + split; [split; [intros [m H]; discriminate H|]|intros m H; discriminate H].
      intros (f' & r & t' & x & H & _ & R'). injection H as <- <-. congruence.
    + split; [split; [intros [m H]; discriminate H|]|intros m H; discriminate H].
      intros (f' & r & t' & x & H & _ & R'). injection H as <- <-. congruence.
  - change (nth_error (AVal v :: rest) 0) with (Some (AVal v)). cbv iota.
    split; [split; [intros [m H]; discriminate H
                   |intros (f & r & t & x & H & _); discriminate H]
           |intros m H; discriminate H].
Qed.

Lemma slice_drop_last p :
  slice p 0 (-1) = substring 0 (String.length p - 1) p.
Proof.
  unfold slice.
  replace (0 <? 0) with false by reflexivity.
  replace (-1 <? 0) with true by reflexivity.
  rewrite Z.min_l by lia. change (Z.to_nat 0) with 0%nat.
  f_equal. lia.
Qed.

(** X11.  When the prefix of a chat frame has no '!', [indexOf] gives -1
    and [slice(0, -1)] cuts the last character off: the author is looked up
    under the prefix without its last character, not under the prefix. *)
Theorem message_author_without_separator c f room t more r others :
  params f = room :: t :: more ->
  indexOf "!" (prefix f) = -1 ->
  channels_get c (Some room) = Ok (Some r) ->
  exists m,
    eventEmmiter c "message" (AFrame f :: others) = ([EmitMessage m], Ok tt)
    /\ author m
       = Collection.get (users r)
           (substring 0 (String.length (prefix f) - 1) (prefix f)).
Proof.
  intros Hp Hi Hroom. unfold eventEmmiter.
  change (String.eqb "message" "message") with true.
  change (nth_error (AFrame f :: others) 0) with (Some (AFrame f)).
  cbv iota. rewrite Hp. cbn [nth_error]. rewrite Hroom, Hi, slice_drop_last.
  eexists. split; reflexivity.
Qed.

(** The theorem at an input: a frame whose prefix is the bare login
    'alice'; the author is looked up under 'alic' and not found. *)
Lemma message_author_without_separator_witness :
  exists m,
    eventEmmiter editedClient "message"
      [AFrame (mkFrame [] "alice" "PRIVMSG" ["#room"; "hello"])]
    = ([EmitMessage m], Ok tt)
    /\ author m
       = Collection.get (users (roomWith [("m1", oldEdited); ("m2", fresh)])) "alic".
Proof.
  exact (message_author_without_separator editedClient
           (mkFrame [] "alice" "PRIVMSG" ["#room"; "hello"])
           "#room" "hello" [] (roomWith [("m1", oldEdited); ("m2", fresh)]) []
           eq_refl eq_refl eq_refl).
Defined.

(** ** More on the sweep *)

Lemma filter_all {A} (f : A -> bool) l :
  (forall x, In x l -> f x = true) -> filter f l = l.
Proof.
  intros H. induction l as [|x l IH]; cbn; [reflexivity|].
  rewrite (H x) by now left. f_equal. apply IH. intros y Hy. apply H. now right.
Qed.

Lemma filter_none {A} (f : A -> bool) l :
  (forall x, In x l -> f x = false) -> filter f l = [].
Proof.
  intros H. induction l as [|x l IH]; cbn; [reflexivity|].
  rewrite (H x) by now left. apply IH. intros y Hy. apply H. now right.
Qed.

(** A channel swept for one lifetime is left as it is by a sweep that
    spares everything the first one spared. *)
Lemma sweptChannel_again now ms now' ms' channel :
  (forall m, sweepPredicate now ms m = false -> sweepPredicate now' ms' m = false) ->
  sweptChannel now' ms' (sweptChannel now ms channel) = sweptChannel now ms channel.
Proof.
  intros H. unfold sweptChannel at 2 3.
  destruct (messages channel) as [cache|] eqn:M.
  - unfold sweptChannel. cbn [messages with_messages].
    set (K := filter (fun kv => negb (sweepPredicate now ms (snd kv))) cache).
    assert (HK : filter (fun kv => negb (sweepPredicate now' ms' (snd kv))) K = K).
    { apply filter_all. intros [k m] Hin. unfold K in Hin.
      apply filter_In in Hin as [_ Hm]. cbn [snd] in *.
      apply negb_true_iff in Hm. apply negb_true_iff. now apply H. }
    rewrite HK. reflexivity.
  - unfold sweptChannel. now rewrite M.
Qed.

Lemma later_sweep_spares now L now' L' m :
  now' + L * 1000 <= now + L' * 1000 ->
  sweepPredicate now (L * 1000) m = false ->
  sweepPredicate now' (L' * 1000) m = false.
Proof.
  unfold sweepPredicate. intros H Hm.
  apply Z.ltb_ge in Hm. apply Z.ltb_ge. lia.
Qed.

(** X13.  Sweeping is idempotent, and more: after a sweep at [now] with the
    lifetime [L], a sweep at [now'] with the lifetime [L'] removes nothing,
    returns 0 and leaves the client as it is, whenever
    [now' + L * 1000 <= now + L' * 1000] (the same time and lifetime, a
    longer lifetime, or a later time made up for by the lifetime). *)
Theorem sweep_again_removes_nothing now L now' L' c tr n c' :
  0 < L -> 0 < L' ->
  now' + L * 1000 <= now + L' * 1000 ->
  sweepMessages now (JNum L) c = (tr, Returned n c') ->
  exists tr', sweepMessages now' (JNum L') c' = (tr', Returned 0 c').
Proof.
  intros HL HL' Hle E.
  rewrite (sweepMessages_positive now L c HL) in E. injection E as _ _ <-.
  rewrite (sweepMessages_positive now' L' _ HL').
  cbn [channels with_channels]. rewrite cachedMessages_swept.
  eexists. f_equal. f_equal.
  - rewrite filter_none; [reflexivity|].
    intros m Hm. apply filter_In in Hm as [_ Hm]. apply negb_true_iff in Hm.
    now apply (later_sweep_spares now L now' L').
  - unfold with_channels. cbn [options token user readyAt autoLogEnd
                                 channels channels_get_installed].
    f_equal. rewrite map_map. apply map_ext. intros [k channel]. cbn [fst snd].
    f_equal. apply sweptChannel_again. intros m.
    apply (later_sweep_spares now L now' L' m Hle).
Qed.

(** The theorem at an input: the same sweep twice on the client that caches
    an old message and a fresh one. *)
Lemma sweep_again_removes_nothing_witness :
  exists tr',
    sweepMessages 5000 (JNum 1)
      (with_channels editedClient [("#room", roomWith [("m2", fresh)])])
    = (tr', Returned 0 (with_channels editedClient [("#room", roomWith [("m2", fresh)])])).
Proof.
  apply (sweep_again_removes_nothing 5000 1 5000 1 editedClient [LogSwept 1 1 1] 1).
  - lia.
  - lia.
  - lia.
  - reflexivity.
Defined.

Lemma lookup_map_values {V W} (g : V -> W) (c : list (string * V)) k :
  lookup (map (fun kv => (fst kv, g (snd kv))) c) k = option_map g (lookup c k).
Proof.
  induction c as [|[k0 v0] c IH]; cbn; [reflexivity|].
  destruct (String.eqb k0 k); [reflexivity|apply IH].
Qed.

Lemma find_map_values {V} (g : V -> V) (p : V -> bool) (c : Collection.t V) :
  (forall v, p (g v) = p v) ->
  Collection.find p (map (fun kv => (fst kv, g (snd kv))) c)
  = option_map g (Collection.find p c).
Proof.
  intros H. unfold Collection.find, Collection.values.
  induction c as [|[k0 v0] c IH]; cbn; [reflexivity|].
  rewrite H. destruct (p v0); [reflexivity|apply IH].
Qed.

Lemma sweptChannel_name now ms channel :
  name (sweptChannel now ms channel) = name channel.
Proof. unfold sweptChannel. destruct (messages channel); reflexivity. Qed.

(** X14.  A sweep with a positive lifetime keeps the rooms: the keys of the
    store and their order, each room's name and users, and whether it has a
    cache at all; options, token and the lookup method stay.  Every lookup
    after the sweep finds the swept version of the room that it found
    before, and throws where it threw before. *)
Theorem sweep_preserves_rooms now L c tr n c' :
  0 < L ->
  sweepMessages now (JNum L) c = (tr, Returned n c') ->
  keys (channels c') = keys (channels c)
  /\ options c' = options c /\ token c' = token c
  /\ channels_get_installed c' = channels_get_installed c
  /\ (forall k,
        Collection.get (channels c') k
        = option_map (sweptChannel now (L * 1000)) (Collection.get (channels c) k))
  /\ (forall s,
        channels_get c' s
        = match channels_get c s with
          | Ok found => Ok (option_map (sweptChannel now (L * 1000)) found)
          | Throw e => Throw e
          end)
  /\ (forall channel,
        name (sweptChannel now (L * 1000) channel) = name channel
        /\ users (sweptChannel now (L * 1000) channel) = users channel
        /\ (messages (sweptChannel now (L * 1000) channel) = None
            <-> messages channel = None)).
Proof.
  intros HL E. rewrite (sweepMessages_positive now L c HL) in E.
  injection E as _ _ <-. cbn [channels options token channels_get_installed with_channels].
  split; [|split; [reflexivity|split; [reflexivity|split; [reflexivity|split; [|split]]]]].
  - unfold keys. rewrite map_map. reflexivity.
  - intros k. unfold Collection.get. apply lookup_map_values.
  - intros s. unfold channels_get.
    cbn [channels channels_get_installed with_channels].
    destruct (channels_get_installed c); destruct s as [s|]; try reflexivity.
    + f_equal. apply find_map_values. intros v. now rewrite sweptChannel_name.
    + f_equal. unfold Collection.get. apply lookup_map_values.
  - intros channel. unfold sweptChannel.
    destruct (messages channel) eqn:M; cbn [name users messages with_messages].
    + repeat split; try reflexivity; discriminate.
    + rewrite M. tauto.
Qed.

(** The theorem at an input: the sweep of [editedClient] keeps '#room'. *)
Lemma sweep_preserves_rooms_witness :
  keys (channels (with_channels editedClient [("#room", roomWith [("m2", fresh)])]))
  = keys (channels editedClient).
Proof.
  refine (proj1 (sweep_preserves_rooms 5000 1 editedClient [LogSwept 1 1 1] 1 _ _ _)).
  - lia.
  - reflexivity.
Defined.

Lemma sweptChannel_fresh now ms k :
  sweptChannel now ms (newChannel k) = newChannel k.
Proof. reflexivity. Qed.

Lemma cachedMessages_fresh (st : Collection.t Channel) :
  storeOK st -> cachedMessages st = [].
Proof.
  unfold cachedMessages, Collection.values.
  induction st as [|[k v] st IH]; intros H; cbn [map flat_map snd]; [reflexivity|].
  rewrite (H k v) by now left. cbn [messages newChannel Collection.values
                                     Collection.empty map app].
  apply IH. intros k' v' Hin. apply H. now right.
Qed.

Lemma swept_fresh_store now ms (st : Collection.t Channel) :
  storeOK st ->
  map (fun kv => (fst kv, sweptChannel now ms (snd kv))) st = st.
Proof.
  induction st as [|[k v] st IH]; intros H; cbn [map fst snd]; [reflexivity|].
  rewrite (H k v) by now left. rewrite sweptChannel_fresh. f_equal.
  apply IH. intros k' v' Hin. apply H. now right.
Qed.

(** X15.  The lifetime that the periodic sweep falls back on has passed the
    validation, so on a client as constructed [sweepMessages()] never
    reaches [logger.fatal]: it returns -1 when [messageCacheLifetime] is
    zero or negative and 0 otherwise (the caches are still empty), and the
    client is unchanged. *)
Theorem sweep_of_constructed_client d env given tr c now :
  constructor d env given = (tr, Ok c) ->
  exists L tr',
    getProp (options c) "messageCacheLifetime" = JNum L
    /\ sweepMessages now JUndefined c
       = (tr', Returned (if L <=? 0 then -1 else 0) c).
Proof.
  intros E. apply constructor_ok_explicit in E as (V & _ & l & _ & _ & ->).
  set (o := mergeDefault d given) in *.
  assert (HL : exists L, getProp o "messageCacheLifetime" = JNum L).
  { unfold recognizedValid in V. repeat (apply andb_true_iff in V as [V ?]).
    destruct (getProp o "messageCacheLifetime") as [| |?|L| |?|?|];
      try discriminate. eauto. }
  destruct HL as [L HL]. exists L.
  assert (D : sweepMessages now JUndefined (constructedClient o env l)
              = sweepMessages now (JNum L) (constructedClient o env l)).
  { unfold sweepMessages. cbn [options constructedClient]. now rewrite HL. }
  destruct (L <=? 0) eqn:Le.
  - eexists. split; [exact HL|]. rewrite D. unfold sweepMessages. now rewrite Le.
  - apply Z.leb_gt in Le. eexists. split; [exact HL|].
    rewrite D, (sweepMessages_positive now L _ Le).
    cbn [channels constructedClient].
    destruct (initialStore_spec l) as (OK & _ & _).
    rewrite (cachedMessages_fresh _ OK), (swept_fresh_store _ _ _ OK).
    reflexivity.
Qed.

(** The theorem at an input: the example client, whose lifetime is 0. *)
Lemma sweep_of_constructed_client_witness :
  exists L tr',
    getProp (options exampleClient) "messageCacheLifetime" = JNum L
    /\ sweepMessages 5000 JUndefined exampleClient
       = (tr', Returned (if L <=? 0 then -1 else 0) exampleClient).
Proof.
  exact (sweep_of_constructed_client sampleDefaultOptions exampleEnv exampleGiven
           exampleTrace exampleClient 5000 eq_refl).
Defined.

(** ** More on the options *)

Lemma constructor_throw_env d env env' given tr e :
  constructor d env given = (tr, Throw e) ->
  constructor d env' given = (tr, Throw e).
Proof.
  unfold constructor.
  destruct (_validateOptions d (mergeDefault d given)) as [t0 [[]|e0]];
    [|intros H; exact H].
  set (o := mergeDefault d given) in *.
  run_constructor o; intros H; try discriminate H; exact H.
Qed.

(** X16.  The environment decides the token and nothing else: with another
    environment the same options throw the same error after the same
    effects, or give a client with the same effects, options, flags and
    store, whose token is the one of the other environment. *)
Theorem environment_only_sets_token d env env' given :
  (forall tr e,
      constructor d env given = (tr, Throw e) ->
      constructor d env' given = (tr, Throw e))
  /\ (forall tr c,
        constructor d env given = (tr, Ok c) ->
        exists c',
          constructor d env' given = (tr, Ok c')
          /\ options c' = options c /\ channels c' = channels c
          /\ channels_get_installed c' = channels_get_installed c
          /\ autoLogEnd c' = autoLogEnd c
          /\ user c' = user c /\ readyAt c' = readyAt c
          /\ token c' = initToken JUndefined env').
Proof.
  split; [intros tr e; apply constructor_throw_env|].
  intros tr c E. apply constructor_ok_explicit in E as (V & U & l & C & -> & ->).
  exists (constructedClient (mergeDefault d given) env' l).
  split; [apply (constructor_succeeds d env' given l V U C)|].
  repeat split.
Qed.

(** X17.  The two flags [debug] and [autoLogEnd] may be left out or falsy;
    given as anything truthy that is not a boolean (1, 'yes', an array)
    they make the constructor throw a TypeError before it has done
    anything. *)
Theorem truthy_nonboolean_flag_throws d env given k v :
  lookup given k = Some v ->
  k = "debug" \/ k = "autoLogEnd" ->
  truthy v = true ->
  typeof v <> "boolean" ->
  exists msg, constructor d env given = ([], Throw (TypeError msg)).
Proof.
  intros Hk Hflag T Ty.
  destruct (recognizedValid (mergeDefault d given)) eqn:V.
  - exfalso.
    pose proof (mergeDefault_getProp d given k v Hk) as G.
    pose proof (valid_flag_true _ k V Hflag) as B.
    rewrite G in B. rewrite (B T) in Ty. now apply Ty.
  - unfold constructor. destruct (validate_unrecognized d _ V) as [msg ->].
    exists msg. reflexivity.
Qed.

(** The theorem at an input: [autoLogEnd: 1]. *)
Lemma truthy_nonboolean_flag_throws_witness :
  exists msg,
    constructor sampleDefaultOptions [] [("autoLogEnd", JNum 1)]
    = ([], Throw (TypeError msg)).
Proof.
  apply (truthy_nonboolean_flag_throws sampleDefaultOptions []
           [("autoLogEnd", JNum 1)] "autoLogEnd" (JNum 1)).
  - reflexivity.
  - right. reflexivity.
  - reflexivity.
  - discriminate.
Defined.

(** X19.  Until the session manager records the time of readiness,
    [readyAt] is null: the uptime of a client as constructed is the value
    of [Date.now()] itself, not zero. *)
Theorem uptime_before_ready d env given tr c now :
  constructor d env given = (tr, Ok c) ->
  readyAt c = JNull /\ uptime now c = Some (JNum now).
Proof.
  intros E. apply constructor_ok_explicit in E as (_ & _ & l & _ & _ & ->).
  unfold uptime. cbn [readyAt constructedClient].
  split; [reflexivity|]. now rewrite Z.sub_0_r.
Qed.

(** The theorem at an input: the example client at 5000 ms. *)
Lemma uptime_before_ready_witness :
  readyAt exampleClient = JNull /\ uptime 5000 exampleClient = Some (JNum 5000).
Proof.
  exact (uptime_before_ready sampleDefaultOptions exampleEnv exampleGiven
           exampleTrace exampleClient 5000 eq_refl).
Defined.

(** X18.  [connectedChannels] is not validated once [channels] is an
    array: the test reads [options.channels instanceof Array].  If a
    construction returns, it returns as well, after the same effects and
    with the same store and token, for options that differ only in the
    value given for [connectedChannels], whatever that value is. *)
Theorem connectedChannels_not_validated d env given given' tr c :
  keys given = keys given' ->
  (forall k, k <> "connectedChannels" -> lookup given k = lookup given' k) ->
  constructor d env given = (tr, Ok c) ->
  exists c',
    constructor d env given' = (tr, Ok c')
    /\ channels c' = channels c
    /\ channels_get_installed c' = channels_get_installed c
    /\ token c' = token c.
Proof.
  intros K Same E.
  apply constructor_ok_explicit in E as (V & U & l & C & -> & ->).
  set (m := mergeDefault d given) in *. set (m' := mergeDefault d given').
  assert (G : forall k, k <> "connectedChannels" -> getProp m' k = getProp m k).
  { intros k Hk. unfold getProp, m, m'.
    now rewrite !mergeDefault_lookup, (Same k Hk). }
  assert (C' : getProp m' "channels" = JArr l) by (rewrite G; [exact C|discriminate]).
  assert (V' : recognizedValid m' = true).
  { unfold recognizedValid in *.
    rewrite (G "messageCacheMaxSize"), (G "messageCacheLifetime"),
            (G "messageSweepInterval"), (G "fetchAllChatters"),
            (G "disabledEvents"), (G "retryLimit"), (G "autoLogEnd"),
            (G "channels"), (G "debug") by discriminate.
    rewrite C in *. cbn [instanceofArray negb] in *.
    rewrite !andb_false_r in *. cbn [andb negb] in *. exact V. }
  assert (U' : firstUnknown d given' = None).
  { unfold firstUnknown in *. now rewrite <- K. }
  exists (constructedClient m' env l).
  split; [|repeat split].
  rewrite (constructor_succeeds d env given' l V' U' C'). fold m'.
  f_equal. unfold constructorTrace.
  now rewrite (G "debug"), (G "autoLogEnd"), (G "messageSweepInterval") by discriminate.
Qed.

(** The theorem at an input: [connectedChannels] given as the number 7
    where the empty array constructs. *)
Lemma connectedChannels_not_validated_witness :
  exists c',
    constructor sampleDefaultOptions [] [("connectedChannels", JNum 7)]
    = (exampleTrace, Ok c')
    /\ channels c' = channels bareClient
    /\ channels_get_installed c' = channels_get_installed bareClient
    /\ token c' = token bareClient.
Proof.
  apply (connectedChannels_not_validated sampleDefaultOptions []
           [("connectedChannels", JArr [])] [("connectedChannels", JNum 7)]
           exampleTrace
           (constructedClient
              (mergeDefault sampleDefaultOptions [("connectedChannels", JArr [])])
              [] [])).
  - reflexivity.
  - intros k Hk. cbn [lookup].
    destruct (String.eqb "connectedChannels" k) eqn:E; [|reflexivity].
    apply String.eqb_eq in E. now contradiction Hk.
  - reflexivity.
Defined.



